(** * ComfyUI-sonar: momentum samplers and the noise algebra

    A shallow embedding of [py/sonar.py] and [py/noise.py].

    Scalars are idealised: a Python float and an entry of a torch tensor are
    both a real number ([R]), so that the arithmetic identities the samplers
    rely on can be stated with Leibniz equality.  A tensor is a shape together
    with its entries in row-major order.  Python exceptions are values of
    [exn]; a computation that can raise returns a [result]. *)

From Stdlib Require Import Reals Lra Lia List Ascii String ZArith Bool.
From stdpp Require Import base list strings gmap.
Import ListNotations.
Open Scope R_scope.

(** ** Exceptions and fallible computations *)

Inductive exn : Type :=
| TypeError
| ValueError
| KeyError
| IndexError
| AttributeError
| RuntimeError
| ZeroDivisionError
| UnboundLocalError.

Inductive result (A : Type) : Type :=
| Ok (a : A)
| Raise (e : exn).

Arguments Ok {A} a.
Arguments Raise {A} e.

Definition rbind {A B : Type} (m : result A) (k : A -> result B) : result B :=
  match m with
  | Ok a => k a
  | Raise e => Raise e
  end.

#[global] Instance result_bind : MBind result := fun A B k m => rbind m k.
#[global] Instance result_ret : MRet result := fun A a => Ok a.

Definition raises {A : Type} (m : result A) : Prop :=
  match m with
  | Ok _ => False
  | Raise _ => True
  end.

(** ** Comparisons on floats, as booleans *)

Definition Reqb (a b : R) : bool := if Req_dec_T a b then true else false.
Definition Rleb (a b : R) : bool := if Rle_dec a b then true else false.
Definition Rltb (a b : R) : bool := if Rlt_dec a b then true else false.

(** [float("inf")] is the only non-finite float the samplers use. *)
Inductive xfloat : Type :=
| Finite (r : R)
| PosInf.

Definition le_xfloat (a : R) (b : xfloat) : bool :=
  match b with
  | Finite r => Rleb a r
  | PosInf => true
  end.

(** ** Python integers: [%] and list indexing *)

Definition py_mod (a b : Z) : result Z :=
  if Z.eqb b 0 then Raise ZeroDivisionError else Ok (Z.modulo a b).

Definition py_index {A : Type} (l : list A) (i : Z) : result A :=
  let n := Z.of_nat (length l) in
  let j := if Z.ltb i 0 then Z.add i n else i in
  if Z.ltb j 0 then Raise IndexError
  else match nth_error l (Z.to_nat j) with
       | Some a => Ok a
       | None => Raise IndexError
       end.

(** ** Tensors *)

Record Tensor : Type := mkTensor {
  shape : list nat;
  data : list R
}.

Definition prod_dims (dims : list nat) : nat := fold_right Nat.mul 1%nat dims.

Definition tmap (f : R -> R) (t : Tensor) : Tensor :=
  mkTensor (shape t) (map f (data t)).

Fixpoint zip_with (f : R -> R -> R) (a b : list R) : list R :=
  match a, b with
  | u :: a', v :: b' => f u v :: zip_with f a' b'
  | _, _ => []
  end.

(** An elementwise operation on two tensors of one shape.  On operands of
    different sizes the shorter one decides here; torch broadcasts or
    raises there. *)
Definition tmap2 (f : R -> R -> R) (a b : Tensor) : Tensor :=
  mkTensor (shape a) (zip_with f (data a) (data b)).

(** Two tensors of one shape, with as many entries: what torch asks of the
    operands of an elementwise operation that does not broadcast. *)
Definition same_shape (a b : Tensor) : Prop :=
  shape a = shape b /\ length (data a) = length (data b).

(** [a + b], [a - b], [a * b] on tensors of one shape. *)
Definition tadd : Tensor -> Tensor -> Tensor := tmap2 Rplus.
Definition tsub : Tensor -> Tensor -> Tensor := tmap2 Rminus.
Definition tmul : Tensor -> Tensor -> Tensor := tmap2 Rmult.
Definition tdiv : Tensor -> Tensor -> Tensor := tmap2 Rdiv.
(** [c * t], [t * c], [t + c], [c + t], [t / c] with a scalar [c]. *)
Definition smul (c : R) (t : Tensor) : Tensor := tmap (fun v => c * v) t.
Definition muls (t : Tensor) (c : R) : Tensor := tmap (fun v => v * c) t.
Definition adds (t : Tensor) (c : R) : Tensor := tmap (fun v => v + c) t.
Definition sadd (c : R) (t : Tensor) : Tensor := tmap (fun v => c + v) t.
Definition divs (t : Tensor) (c : R) : Tensor := tmap (fun v => v / c) t.

Definition zeros_like (t : Tensor) : Tensor := tmap (fun _ => 0) t.
Definition clone (t : Tensor) : Tensor := mkTensor (shape t) (data t).
Definition full (dims : list nat) (v : R) : Tensor :=
  mkTensor dims (repeat v (prod_dims dims)).

(** [x.new_ones([x.shape[0]])] *)
Definition new_ones_batch (x : Tensor) : result Tensor :=
  match shape x with
  | [] => Raise IndexError
  | b :: _ => Ok (full [b] 1)
  end.

(** [chunks k n l] cuts [l] into [k] consecutive pieces of [n] entries. *)
Fixpoint chunks {A : Type} (k n : nat) (l : list A) : list (list A) :=
  match k with
  | O => []
  | S k' => firstn n l :: chunks k' n (skipn n l)
  end.

Definition sum_list (l : list R) : R := fold_right Rplus 0 l.

Definition mean_list (l : list R) : R := sum_list l / INR (length l).

(** torch's [std] is the unbiased estimator. *)
Definition std_list (l : list R) : R :=
  let m := mean_list l in
  sqrt (sum_list (map (fun v => (v - m) * (v - m)) l) / (INR (length l) - 1)).

(** A statistic over the dimensions from [k] on, with [keepdim=True],
    written out at the shape of [t] (the broadcast of the reduced tensor). *)
Definition reduce_keepdim (stat : list R -> R) (k : nat) (t : Tensor) : Tensor :=
  let outer := prod_dims (firstn k (shape t)) in
  let inner := prod_dims (skipn k (shape t)) in
  mkTensor (shape t)
    (concat (map (fun c => repeat (stat c) (length c)) (chunks outer inner (data t)))).

Definition mean_keepdim : nat -> Tensor -> Tensor := reduce_keepdim mean_list.
Definition std_keepdim : nat -> Tensor -> Tensor := reduce_keepdim std_list.

(** A negative dimension counts from the last one. *)
Definition norm_dim (ndim : nat) (dim : Z) : nat :=
  Z.to_nat (if Z.ltb dim 0 then Z.add dim (Z.of_nat ndim) else dim).

(** Apply [f] to the list of slices of [t] along dimension [dim], for every
    position in the dimensions before it. *)
Definition along_dim (f : list (list R) -> list (list R)) (dim : nat)
    (t : Tensor) : Tensor :=
  let outer := prod_dims (firstn dim (shape t)) in
  let size := nth dim (shape t) 1%nat in
  let inner := prod_dims (skipn (S dim) (shape t)) in
  mkTensor (shape t)
    (concat (map (fun c => concat (f (chunks size inner c)))
                 (chunks outer (size * inner) (data t)))).

(** [torch.flip(t, (dim,))] *)
Definition flip (t : Tensor) (dim : Z) : Tensor :=
  along_dim (@rev (list R)) (norm_dim (length (shape t)) dim) t.

(** [torch.roll(t, count, dims=(dim,))] for [0 <= count < t.shape[dim]]:
    the last [count] slices come first. *)
Definition roll (t : Tensor) (count : nat) (dim : Z) : Tensor :=
  along_dim (fun slices =>
               skipn (length slices - count) slices
               ++ firstn (length slices - count) slices)
            (norm_dim (length (shape t)) dim) t.

(** ** sonar.py: the momentum integrator *)

Inductive HistoryType : Type :=
| ZERO
| RAND
| SAMPLE.

Inductive GuidanceType : Type :=
| LINEAR
| EULER.

(** [history_d] is [None] until [init_hist_d] ran, then the int [0] or a
    tensor. *)
Inductive pyhist : Type :=
| HNone
| HInt (z : Z)
| HTensor (t : Tensor).

Record SonarBase : Type := mkSonarBase {
  history_d : pyhist;
  history_type : HistoryType;
  momentum : R;
  momentum_hist : R;
  direction : R
}.

Definition set_history_d (self : SonarBase) (h : pyhist) : SonarBase :=
  mkSonarBase h (history_type self) (momentum self) (momentum_hist self)
    (direction self).

(** torch's global generator: the number of draws taken so far, and the
    tensor each draw returns for a requested shape. *)
Record Torch : Type := mkTorch {
  randn_draw : nat -> list nat -> Tensor;
  randint_draw : nat -> Z;
  draws : nat
}.

Definition torch_tick (w : Torch) : Torch :=
  mkTorch (randn_draw w) (randint_draw w) (S (draws w)).

Definition randn_like (w : Torch) (x : Tensor) : Tensor * Torch :=
  (randn_draw w (draws w) (shape x), torch_tick w).

Definition init_hist_d (self : SonarBase) (x : Tensor) (w : Torch)
  : SonarBase * Torch :=
  match history_d self with
  | HNone =>
      match history_type self with
      | ZERO => (set_history_d self (HInt 0), w)
      | SAMPLE => (set_history_d self (HTensor x), w)
      | RAND => let '(n, w') := randn_like w x in
                (set_history_d self (HTensor n), w')
      end
  | _ => (self, w)
  end.

Definition momentum_step (self : SonarBase) (x d : Tensor) (dt : R)
  : result (Tensor * SonarBase) :=
  if Reqb (momentum self) 1 then Ok (tadd x (muls d dt), self)
  else
    let p := (1 - momentum self) * direction self in
    let q := 1 - momentum_hist self in
    match history_d self with
    | HNone => Raise TypeError
    | HInt z =>
        let momentum_d := adds (smul (1 - p) d) (p * IZR z) in
        let x' := tadd x (muls momentum_d dt) in
        let hd := if Z.eqb z 0 then momentum_d
                  else sadd ((1 - q) * IZR z) (smul q momentum_d) in
        Ok (x', set_history_d self (HTensor hd))
    | HTensor h =>
        let momentum_d := tadd (smul (1 - p) d) (smul p h) in
        let x' := tadd x (muls momentum_d dt) in
        let hd := tadd (smul (1 - q) h) (smul q momentum_d) in
        Ok (x', set_history_d self (HTensor hd))
    end.

(** [torch.randn_like] wants a tensor; anything else is a [TypeError]. *)
Inductive pyobj : Type :=
| OTensor (t : Tensor)
| OSize (dims : list nat).

Definition torch_randn_like (w : Torch) (input : pyobj)
  : result (Tensor * Torch) :=
  match input with
  | OTensor t => Ok (randn_like w t)
  | OSize _ => Raise TypeError
  end.

(** ** sonar.py: the guidance mixin *)

Record SonarGuidanceMixin : Type := mkGuidance {
  ref_latent : option Tensor;
  guidance_factor : R;
  guidance_type : option GuidanceType
}.

(** [prepare_ref_latent]: the latent less its mean, over its deviation.
    Where the deviation is zero the quotient in [R] is [0]; the floats of
    the code give [nan] there. *)
Definition prepare_ref_latent (latent : option Tensor) : option Tensor :=
  match latent with
  | None => None
  | Some l =>
      let avg_s := mean_keepdim 2 l in
      let std_s := std_keepdim 2 l in
      Some (tdiv (tsub l avg_s) std_s)
  end.

(** A latent is a dict; [ref_latent["samples"]] subscripts it. *)
Definition subscript_samples (latent : option (gmap string (option Tensor)))
  : result (option Tensor) :=
  match latent with
  | None => Raise TypeError
  | Some d =>
      match d !! "samples"%string with
      | None => Raise KeyError
      | Some v => Ok v
      end
  end.

Definition SonarGuidanceMixin_init (guidance_type : option GuidanceType)
    (ref_latent : option (gmap string (option Tensor))) (guidance_factor : R)
  : result SonarGuidanceMixin :=
  samples ← subscript_samples ref_latent;
  Ok (mkGuidance (prepare_ref_latent samples) guidance_factor guidance_type).

(** Modelled from the spec: the derivative utility [sampling.to_d] of
    k-diffusion, [(sample - denoised) / sigma] (section 6). *)
Definition to_d (x : Tensor) (sigma : R) (denoised : Tensor) : Tensor :=
  divs (tsub x denoised) sigma.

Definition guidance_euler (self : SonarGuidanceMixin) (sigmas : list R)
    (step_index : nat) (x denoised : Tensor) : result Tensor :=
  let avg_t := mean_keepdim 1 denoised in
  let std_t := std_keepdim 1 denoised in
  match ref_latent self with
  | None => Raise TypeError
  | Some ref =>
      let ref_img_shift := tadd (tmul ref std_t) avg_t in
      match nth_error sigmas step_index, nth_error sigmas (step_index + 1) with
      | Some sigma, Some sigma_next =>
          let d := to_d x sigma ref_img_shift in
          let dt := (sigma_next - sigma) * guidance_factor self in
          Ok (tadd x (muls d dt))
      | _, _ => Raise IndexError
      end
  end.

Definition guidance_linear (self : SonarGuidanceMixin) (x : Tensor)
  : result Tensor :=
  let avg_t := mean_keepdim 1 x in
  let std_t := std_keepdim 1 x in
  match ref_latent self with
  | None => Raise TypeError
  | Some ref =>
      let ref_img_shift := tadd (tmul ref std_t) avg_t in
      Ok (tadd (smul (1 - guidance_factor self) x)
               (smul (guidance_factor self) ref_img_shift))
  end.

Definition is_none {A : Type} (o : option A) : bool :=
  match o with
  | None => true
  | Some _ => false
  end.

Definition guidance_step (self : SonarGuidanceMixin) (sigmas : list R)
    (step_index : nat) (x denoised : Tensor) : result Tensor :=
  if is_none (ref_latent self) || is_none (guidance_type self)
     || Reqb (guidance_factor self) 0
  then Ok x
  else match guidance_type self with
       | Some LINEAR => guidance_linear self x
       | Some EULER => guidance_euler self sigmas step_index x denoised
       | None => Raise ValueError
       end.

(** ** Calling a Python function

    Arguments are bound to parameters as Python does it for a signature
    without [*args] and [**kwargs]: positionals fill the parameters in order,
    every keyword must name a parameter that is still free, and a parameter
    left free takes its default or the call fails.  Each failure is a
    [TypeError], raised before the body runs. *)

(** The members of [NoiseType] (noise_generation.py) that noise.py names. *)
Inductive NoiseType : Type :=
| BROWNIAN | GAUSSIAN | UNIFORM | PERLIN | STUDENTT | PINK | HIGHRES_PYRAMID
| PYRAMID | RAINBOW_MILD | RAINBOW_INTENSE | LAPLACIAN | POWER | GREEN_TEST
| PYRAMID_OLD | PYRAMID_BISLERP | HIGHRES_PYRAMID_BISLERP | PYRAMID_AREA
| HIGHRES_PYRAMID_AREA | PYRAMID_OLD_BISLERP | PYRAMID_OLD_AREA.

Inductive pyval : Type :=
| PNone
| PBool (b : bool)
| PInt (z : Z)
| PFloat (r : R)
| PStr (s : string)
| PTensor (t : Tensor)
| PNoiseType (t : NoiseType)
| PGuidance (g : SonarGuidanceMixin) (sigmas : list R).

Record param : Type := mkParam {
  pname : string;
  pdefault : option pyval
}.

Definition required (name : string) : param := mkParam name None.
Definition optional (name : string) (v : pyval) : param := mkParam name (Some v).

Definition is_bound (name : string) (env : list (string * pyval)) : bool :=
  existsb (fun kv => String.eqb (fst kv) name) env.

Fixpoint bind_positional (params : list param) (pos : list pyval)
  : result (list (string * pyval)) :=
  match pos, params with
  | [], _ => Ok []
  | _ :: _, [] => Raise TypeError
  | v :: pos', p :: params' =>
      env ← bind_positional params' pos';
      Ok ((pname p, v) :: env)
  end.

Fixpoint bind_keywords (params : list param) (env : list (string * pyval))
    (kw : list (string * pyval)) : result (list (string * pyval)) :=
  match kw with
  | [] => Ok env
  | (k, v) :: kw' =>
      if negb (existsb (fun p => String.eqb (pname p) k) params)
      then Raise TypeError
      else if is_bound k env then Raise TypeError
      else bind_keywords params (env ++ [(k, v)]) kw'
  end.

Fixpoint lookup_arg (name : string) (env : list (string * pyval))
  : option pyval :=
  match env with
  | [] => None
  | (k, v) :: env' => if String.eqb k name then Some v else lookup_arg name env'
  end.

Fixpoint fill_defaults (params : list param) (env : list (string * pyval))
  : result (list pyval) :=
  match params with
  | [] => Ok []
  | p :: params' =>
      v ← match lookup_arg (pname p) env with
          | Some v => Ok v
          | None => match pdefault p with
                    | Some v => Ok v
                    | None => Raise TypeError
                    end
          end;
      vs ← fill_defaults params' env;
      Ok (v :: vs)
  end.

(** The values of the parameters, in the order of the signature. *)
Definition bind_args (params : list param) (pos : list pyval)
    (kw : list (string * pyval)) : result (list pyval) :=
  env ← bind_positional params pos;
  env' ← bind_keywords params env kw;
  fill_defaults params env'.

(** [SonarGuidanceMixin.guidance_linear] and [guidance_euler] reached through
    the class, as noise.py does: plain functions of [(self, x)] and of
    [(self, step_index, x, denoised)]. *)
Definition guidance_linear_params : list param :=
  [required "self"; required "x"].

Definition guidance_euler_params : list param :=
  [required "self"; required "step_index"; required "x"; required "denoised"].

Definition call_guidance_linear (pos : list pyval) : result Tensor :=
  args ← bind_args guidance_linear_params pos [];
  match args with
  | [PGuidance self _; PTensor x] => guidance_linear self x
  | _ => Raise AttributeError
  end.

Definition call_guidance_euler (pos : list pyval) : result Tensor :=
  args ← bind_args guidance_euler_params pos [];
  match args with
  | [PGuidance self sigmas; PInt i; PTensor x; PTensor denoised] =>
      guidance_euler self sigmas (Z.to_nat i) x denoised
  | _ => Raise AttributeError
  end.

(** ** noise.py: scaling, the registry of generators, [get_noise_sampler] *)

(** Modelled from the spec: [scale_noise] of noise_generation.py, which is
    not among the sources.  Section 4.1: when [normalized], the tensor is
    rescaled to unit per-sample standard deviation and then multiplied by
    [factor]; otherwise it is multiplied by [factor] directly. *)
Definition scale_noise (noise : Tensor) (factor : R) (normalized : bool)
  : Tensor :=
  if normalized then muls (tdiv noise (std_keepdim 1 noise)) factor
  else muls noise factor.

(** [str.upper] on a string of ASCII characters: the letters [a] to [z]
    go to [A] to [Z] and nothing else changes.  Beyond ASCII Python follows
    Unicode, which this does not. *)
Definition upper_ascii (c : ascii) : ascii :=
  let n := nat_of_ascii c in
  if (97 <=? n)%nat && (n <=? 122)%nat then ascii_of_nat (n - 32) else c.

Fixpoint upper (s : string) : string :=
  match s with
  | EmptyString => EmptyString
  | String c s' => String (upper_ascii c) (upper s')
  end.


Definition NoiseType_names : list (string * NoiseType) :=
  [("BROWNIAN", BROWNIAN); ("GAUSSIAN", GAUSSIAN); ("UNIFORM", UNIFORM);
   ("PERLIN", PERLIN); ("STUDENTT", STUDENTT); ("PINK", PINK);
   ("HIGHRES_PYRAMID", HIGHRES_PYRAMID); ("PYRAMID", PYRAMID);
   ("RAINBOW_MILD", RAINBOW_MILD); ("RAINBOW_INTENSE", RAINBOW_INTENSE);
   ("LAPLACIAN", LAPLACIAN); ("POWER", POWER); ("GREEN_TEST", GREEN_TEST);
   ("PYRAMID_OLD", PYRAMID_OLD); ("PYRAMID_BISLERP", PYRAMID_BISLERP);
   ("HIGHRES_PYRAMID_BISLERP", HIGHRES_PYRAMID_BISLERP);
   ("PYRAMID_AREA", PYRAMID_AREA);
   ("HIGHRES_PYRAMID_AREA", HIGHRES_PYRAMID_AREA);
   ("PYRAMID_OLD_BISLERP", PYRAMID_OLD_BISLERP);
   ("PYRAMID_OLD_AREA", PYRAMID_OLD_AREA)]%string.

(** [NoiseType[name]] *)
Fixpoint NoiseType_getitem_in (table : list (string * NoiseType))
    (name : string) : result NoiseType :=
  match table with
  | [] => Raise KeyError
  | (k, t) :: table' =>
      if String.eqb k name then Ok t else NoiseType_getitem_in table' name
  end.

Definition NoiseType_getitem : string -> result NoiseType :=
  NoiseType_getitem_in NoiseType_names.

Definition is_brownian (t : NoiseType) : bool :=
  match t with
  | BROWNIAN => true
  | _ => false
  end.

Definition is_pnone (v : pyval) : bool :=
  match v with
  | PNone => true
  | _ => false
  end.


Definition truthy (v : pyval) : bool :=
  match v with
  | PNone => false
  | PBool b => b
  | PInt z => negb (Z.eqb z 0)
  | PFloat r => negb (Reqb r 0)
  | PStr s => negb (String.eqb s "")
  | _ => true
  end.

(** A bound leaf sampler, the [NoiseSampler] object: which generator of
    [NOISE_SAMPLERS] it wraps and how it scales what the generator draws. *)
Record NoiseSampler : Type := mkNoiseSampler {
  ns_noise_type : NoiseType;
  ns_x : Tensor;
  ns_sigma_min : pyval;
  ns_sigma_max : pyval;
  ns_seed : pyval;
  ns_factor : R;
  ns_normalized : bool
}.

(** The factor a sampler scales its noise with, a Python number: a float,
    an int or a bool.  Any other factor binds in the code and makes the
    first call of the sampler fail; here it fails when the sampler is
    bound. *)
Definition number_of (v : pyval) : result R :=
  match v with
  | PFloat r => Ok r
  | PInt z => Ok (IZR z)
  | PBool b => Ok (if b then 1 else 0)
  | _ => Raise TypeError
  end.

Definition get_noise_sampler_params : list param :=
  [required "noise_type"; required "x"; required "sigma_min";
   required "sigma_max"; optional "seed" PNone; optional "cpu" (PBool true);
   optional "factor" (PFloat 1); optional "normalized" (PBool false)]%string.

Definition get_noise_sampler (pos : list pyval) (kw : list (string * pyval))
  : result NoiseSampler :=
  args ← bind_args get_noise_sampler_params pos kw;
  match args with
  | [noise_type; x; sigma_min; sigma_max; seed; cpu; factor; normalized] =>
      nt ← match noise_type with
           | PNone => Ok GAUSSIAN
           | PStr name => NoiseType_getitem (upper name)
           | PNoiseType t => Ok t
           | _ => Raise ValueError
           end;
      if is_brownian nt && (is_pnone sigma_min || is_pnone sigma_max)
      then Raise ValueError
      else match x with
           | PTensor xt =>
               f ← number_of factor;
               Ok (mkNoiseSampler nt xt sigma_min sigma_max seed f
                     (truthy normalized))
           | _ => Raise AttributeError
           end
  | _ => Raise TypeError
  end.

(** ** noise.py: [CustomNoiseChain] over a store of item objects

    The chain holds references; [clone] and [set_factor] act on the objects
    behind them, so the store is explicit.  An object is what the chain uses
    of an item: its [factor] and the attributes [clone] copies.  The chain
    of this section is a list of references to items, each with the methods
    of [CustomNoiseItemBase]; chains that hold chains come after it. *)

Record NoiseObj : Type := mkNoiseObj {
  factor : R;
  attrs : list (string * pyval)
}.

Abbreviation store := (list NoiseObj) (only parsing).
Abbreviation ref := nat (only parsing).

Definition deref (h : store) (a : ref) : result NoiseObj :=
  match h !! a with
  | Some o => Ok o
  | None => Raise AttributeError
  end.

Definition alloc (h : store) (o : NoiseObj) : ref * store :=
  (length h, h ++ [o]).

(** [item.clone()]: a new object with the same factor and attributes. *)
Definition item_clone (h : store) (a : ref) : result (ref * store) :=
  o ← deref h a;
  Ok (alloc h (mkNoiseObj (factor o) (attrs o))).

(** [item.set_factor(f)] *)
Definition set_factor (h : store) (a : ref) (f : R) : result store :=
  o ← deref h a;
  Ok (<[a := mkNoiseObj f (attrs o)]> h).

(** [CustomNoiseChain.clone]: a new list of clones. *)
Fixpoint chain_clone (h : store) (items : list ref)
  : result (list ref * store) :=
  match items with
  | [] => Ok ([], h)
  | a :: items' =>
      '(a', h1) ← item_clone h a;
      '(rest, h2) ← chain_clone h1 items';
      Ok (a' :: rest, h2)
  end.

(** [sum(abs(i.factor) for i in self.items)], from the accumulator [acc]. *)
Fixpoint sum_abs_factors (h : store) (items : list ref) (acc : R) : result R :=
  match items with
  | [] => Ok acc
  | a :: items' =>
      o ← deref h a;
      sum_abs_factors h items' (acc + Rabs (factor o))
  end.

Definition chain_factor (h : store) (items : list ref) : result R :=
  sum_abs_factors h items 0.

Definition py_truediv (a b : R) : result R :=
  if Reqb b 0 then Raise ZeroDivisionError else Ok (a / b).

(** [for i in result.items: i.set_factor(i.factor / divisor)] *)
Fixpoint divide_factors (h : store) (items : list ref) (divisor : R)
  : result store :=
  match items with
  | [] => Ok h
  | a :: items' =>
      o ← deref h a;
      q ← py_truediv (factor o) divisor;
      h' ← set_factor h a q;
      divide_factors h' items' divisor
  end.

Definition rescaled (h : store) (items : list ref) (scale : R)
  : result (list ref * store) :=
  f ← chain_factor h items;
  divisor ← py_truediv f scale;
  let divisor := if negb (Reqb divisor 0) then divisor else 1 in
  '(items', h') ← chain_clone h items;
  if negb (Reqb divisor 1)
  then h'' ← divide_factors h' items' divisor; Ok (items', h'')
  else Ok (items', h').

(** Vocabulary for statements about a chain: the objects behind its
    references, the magnitudes the chain sums, an object with its factor
    divided, and the divisor [rescaled] ends up with. *)
Definition resolves (h : store) (items : list ref) (objs : list NoiseObj) : Prop :=
  Forall2 (fun a o => h !! a = Some o) items objs.

Definition abs_factors (objs : list NoiseObj) : list R :=
  map (fun o => Rabs (factor o)) objs.


Definition rescale_divisor (total scale : R) : R :=
  if negb (Reqb (total / scale) 0) then total / scale else 1.

(** ** noise.py: [CustomNoiseChain] whose items may be chains

    A chain has [factor] and [clone], as an item has, and so can be added
    to a chain; it has no [set_factor].  A child is an item of the store or
    a chain, held with its own children: [factor], [clone] and [rescaled]
    change no existing list of items, so the lists need no place in the
    store.  The functions above are these on a chain of items. *)

#[warnings="-register-all"]
Inductive child : Type :=
| ItemRef (a : ref)
| SubChain (items : list child).

(** [i.factor]: the attribute of an item, the property of a chain. *)
Fixpoint child_factor (h : store) (c : child) : result R :=
  match c with
  | ItemRef a => o ← deref h a; Ok (factor o)
  | SubChain items =>
      (fix total (l : list child) (acc : R) {struct l} : result R :=
         match l with
         | [] => Ok acc
         | i :: l' => f ← child_factor h i; total l' (acc + Rabs f)
         end) items 0
  end.

(** [sum(abs(i.factor) for i in items)], from the accumulator [acc]. *)
Fixpoint sum_abs_child_factors (h : store) (items : list child) (acc : R)
  : result R :=
  match items with
  | [] => Ok acc
  | i :: items' =>
      f ← child_factor h i;
      sum_abs_child_factors h items' (acc + Rabs f)
  end.

Definition CustomNoiseChain_factor (h : store) (items : list child)
  : result R :=
  sum_abs_child_factors h items 0.





(** ** noise.py: [RepeatedNoise] *)

(** The four values of one [torch.randint(u32_max, (4,), generator=gen)]. *)
Record Rands : Type := mkRands {
  rands0 : Z;
  rands1 : Z;
  rands2 : Z;
  rands3 : Z
}.

Definition u32_max : Z := 0xFFFFFFFF.
Definition permute_options : Z := 2.

Module RepeatedNoise.
Section Bound.
(** The sampler that the base factory [self.noise_sampler] binds, with its
    own state, and the private generator: what its [k]-th draw returns
    under a given seed. *)
Context {St : Type}.
Variable base_bind : Tensor -> St.
Variable ns : St -> R -> R -> Tensor * St.
Variable gen_randint : Z -> nat -> Rands.

Record t : Type := mk {
  factor : R;
  normalize : option bool;
  repeat_length : Z;
  permute : bool
}.

(** What the closure [noise_sampler] captures. *)
Record closure : Type := mkClosure {
  self : t;
  c_normalize : bool;
  noise_items : list Tensor;
  gen_seed : Z;
  gen_calls : nat;
  ns_state : St
}.

Definition make_noise_sampler (self : t) (x : Tensor) (normalized : bool)
    (seed : option Z) (w : Torch) : closure * Torch :=
  let normalize := match normalize self with
                   | Some b => b
                   | None => normalized
                   end in
  let st := base_bind x in
  let '(seed, w') := match seed with
                     | Some z => (z, w)
                     | None => (randint_draw w (draws w), torch_tick w)
                     end in
  (mkClosure self normalize [] seed 0 st, w').

(** The transform of the [permute] branch. *)
Definition permuted (rands : Rands) (noise : Tensor) : result Tensor :=
  let noise_dims := Z.of_nat (length (shape noise)) in
  k ← py_mod (rands1 rands) permute_options;
  if Z.eqb k 0 then
    if Z.leb (rands2 rands) (Z.div u32_max 10) then Ok (clone noise)
    else
      d ← py_mod (rands2 rands) (noise_dims + 1);
      Ok (flip noise (-1 + d))
  else if Z.eqb k 1 then
    dim ← py_mod (rands2 rands) noise_dims;
    size ← py_index (shape noise) dim;
    count ← py_mod (rands3 rands) (Z.of_nat size);
    Ok (clone (roll noise (Z.to_nat count) dim))
  else Ok noise.

Definition noise_sampler (c : closure) (s sn : R)
  : result (Tensor * closure) :=
  let rands := gen_randint (gen_seed c) (gen_calls c) in
  let calls := S (gen_calls c) in
  '(idx, items, st) ←
    (if Z.ltb (Z.of_nat (length (noise_items c))) (repeat_length (self c))
     then let '(n, st') := ns (ns_state c) s sn in
          Ok (Z.of_nat (length (noise_items c)), noise_items c ++ [n], st')
     else idx ← py_mod (rands0 rands) (repeat_length (self c));
          Ok (idx, noise_items c, ns_state c));
  let c' := mkClosure (self c) (c_normalize c) items (gen_seed c) calls st in
  noise ← py_index items idx;
  if negb (permute (self c)) then Ok (clone noise, c')
  else
    noise' ← permuted rands noise;
    Ok (scale_noise noise' (factor (self c)) (c_normalize c), c').
End Bound.
End RepeatedNoise.

(** ** noise.py: [GuidedNoise] *)

Module GuidedNoise.
Section Bound.
Context {St : Type}.
Variable base_bind : Tensor -> St.
Variable ns : St -> R -> R -> Tensor * St.

Record t : Type := mk {
  factor : R;
  guidance_factor : R;
  ref_latent : Tensor;
  method : string;
  normalize : option bool;
  normalize_ref : bool
}.

(** Which of the two [def noise_sampler] the [match] ran. *)
Inductive branch : Type :=
| linear
| euler.

Record closure : Type := mkClosure {
  self : t;
  c_branch : branch;
  c_normalize : bool;
  c_x : Tensor;
  c_ref_latent : Tensor;
  ns_state : St
}.

Definition make_noise_sampler (self : t) (x : Tensor) (normalized : bool)
  : result closure :=
  let normalize := match normalize self with
                   | Some b => b
                   | None => normalized
                   end in
  let st := base_bind x in
  let ref_latent := scale_noise (clone (ref_latent self)) 1 (normalize_ref self) in
  if String.eqb (method self) "linear"
  then Ok (mkClosure self linear normalize x ref_latent st)
  else if String.eqb (method self) "euler"
  then Ok (mkClosure self euler normalize x ref_latent st)
  else Raise UnboundLocalError.

Definition noise_sampler (c : closure) (s sn : R)
  : result (Tensor * closure) :=
  let '(n, st') := ns (ns_state c) s sn in
  let c' := mkClosure (self c) (c_branch c) (c_normalize c) (c_x c)
              (c_ref_latent c) st' in
  match c_branch c with
  | linear =>
      r ← call_guidance_linear
            [PTensor (scale_noise n 1 (c_normalize c));
             PTensor (c_ref_latent c);
             PFloat (guidance_factor (self c))];
      Ok (scale_noise r (factor (self c)) (c_normalize c), c')
  | euler =>
      r ← call_guidance_euler
            [PFloat s; PFloat sn;
             PTensor (scale_noise n 1 (c_normalize c));
             PTensor (c_x c);
             PTensor (c_ref_latent c);
             PFloat (guidance_factor (self c))];
      Ok (scale_noise r (factor (self c)) (c_normalize c), c')
  end.
End Bound.
End GuidedNoise.

(** ** sonar.py: the sampling loop *)

(** The dict handed to the progress callback after a step. *)
Record Event : Type := mkEvent {
  ev_x : Tensor;
  ev_i : nat;
  ev_sigma : R;
  ev_sigma_hat : R;
  ev_denoised : Tensor
}.

(** What a call of [sampler] did: how many steps it completed, what it
    passed to the callback, and the tensor it returned or the exception it
    raised. *)
Record Run : Type := mkRun {
  steps_done : nat;
  callbacks : list Event;
  outcome : result Tensor
}.

Definition index_sigmas (sigmas : list R) (i : nat) : result R :=
  match nth_error sigmas i with
  | Some v => Ok v
  | None => Raise IndexError
  end.

Section Loop.
Context {Self : Type}.
Variable step : Self -> nat -> Tensor -> Torch ->
                result (Tensor * R * R * Tensor * Self * Torch).

(** [for i in trange(len(sigmas) - 1)]: [indices] is what is left of the
    range. *)
Fixpoint sampling_loop (callback : bool) (sigmas : list R)
    (indices : list nat) (sonar : Self) (x : Tensor) (w : Torch)
    (done : nat) (log : list Event) : Run :=
  match indices with
  | [] => mkRun done log (Ok x)
  | i :: indices' =>
      match step sonar i x w with
      | Raise e => mkRun done log (Raise e)
      | Ok (x', sigma, sigma_hat, denoised, sonar', w') =>
          if callback then
            match index_sigmas sigmas i with
            | Raise e => mkRun (S done) log (Raise e)
            | Ok si =>
                sampling_loop callback sigmas indices' sonar' x' w' (S done)
                  (log ++ [mkEvent x' i si sigma_hat denoised])
            end
          else sampling_loop callback sigmas indices' sonar' x' w' (S done) log
      end
  end.
End Loop.

Definition failed (e : exn) : Run := mkRun 0 [] (Raise e).

(** [sigmas[sigmas > 0].min()] and [sigmas.max()]: torch refuses to reduce
    an empty tensor. *)
Definition tensor_min (l : list R) : result R :=
  match l with
  | [] => Raise RuntimeError
  | v :: l' => Ok (fold_left Rmin l' v)
  end.

Definition tensor_max (l : list R) : result R :=
  match l with
  | [] => Raise RuntimeError
  | v :: l' => Ok (fold_left Rmax l' v)
  end.

Definition positive_sigmas (sigmas : list R) : list R :=
  List.filter (fun v => Rltb 0 v) sigmas.

(** ** sonar.py: [SonarEuler] *)

Module SonarEuler.
Record t : Type := mk {
  base : SonarBase;
  model : Tensor -> Tensor -> Tensor;
  sigmas : list R;
  s_in : Tensor;
  s_churn : R;
  s_tmin : R;
  s_tmax : xfloat;
  s_noise : R
}.

Definition set_base (self : t) (b : SonarBase) : t :=
  mk b (model self) (sigmas self) (s_in self) (s_churn self) (s_tmin self)
    (s_tmax self) (s_noise self).

Definition step (self : t) (step_index : nat) (sample : Tensor) (w : Torch)
  : result (Tensor * R * R * Tensor * t * Torch) :=
  let '(b, w) := init_hist_d (base self) sample w in
  sigma ← index_sigmas (sigmas self) step_index;
  gamma ← (if Rleb (s_tmin self) sigma && le_xfloat sigma (s_tmax self)
           then c ← py_truediv (s_churn self)
                      (IZR (Z.of_nat (length (sigmas self)) - 1));
                Ok (Rmin c (sqrt 2 - 1))
           else Ok 0);
  let sigma_hat := sigma * (gamma + 1) in
  '(sample, w) ←
    (if Rltb 0 gamma then
       '(noise, w') ← torch_randn_like w (OSize (shape sample));
       let eps := muls noise (s_noise self) in
       Ok (tadd sample
             (muls eps (sqrt (sigma_hat * sigma_hat - sigma * sigma))), w')
     else Ok (sample, w));
  let denoised := model self sample (smul sigma_hat (s_in self)) in
  let derivative := to_d sample sigma denoised in
  sigma_next ← index_sigmas (sigmas self) (step_index + 1);
  let dt := sigma_next - sigma_hat in
  '(x', b') ← momentum_step b sample derivative dt;
  Ok (x', sigma, sigma_hat, denoised, set_base self b', w).

Definition sampler (model : Tensor -> Tensor -> Tensor) (x : Tensor)
    (sigmas : list R) (callback : bool) (momentum momentum_hist : R)
    (momentum_init : HistoryType) (direction s_churn s_tmin : R)
    (s_tmax : xfloat) (s_noise : R) (w : Torch) : Run :=
  match new_ones_batch x with
  | Raise e => failed e
  | Ok s_in =>
      let sonar :=
        mk (mkSonarBase HNone momentum_init momentum momentum_hist direction)
           model sigmas s_in s_churn s_tmin s_tmax s_noise in
      sampling_loop step callback sigmas (seq 0 (length sigmas - 1))
        sonar x w 0 []
  end.
End SonarEuler.

(** ** sonar.py: [SonarEulerAncestral] and [SonarNaive] *)

Section Ancestral.
(** The collaborators of section 6, opaque: the ancestral-step rule
    [(sigma_from, sigma_to, eta) -> (sigma_down, sigma_up)] and the base
    generators behind [NOISE_SAMPLERS]. *)
Variable get_ancestral_step : R -> R -> R -> R * R.
Variable base_generator :
  NoiseType -> Tensor -> R -> R -> Torch -> Tensor * Torch.

(** [NoiseSampler.__call__] *)
Definition NoiseSampler_call (self : NoiseSampler) (sigma sigma_next : R)
    (w : Torch) : Tensor * Torch :=
  let '(noise, w') :=
    base_generator (ns_noise_type self) (ns_x self) sigma sigma_next w in
  (if ns_normalized self then scale_noise noise (ns_factor self) true
   else muls noise (ns_factor self), w').

(** The first lines of both ancestral [sampler]s. *)
Definition ancestral_noise_sampler (x : Tensor) (sigmas : list R)
    (noise_type : string) (noise_sampler : option NoiseSampler)
  : result NoiseSampler :=
  if negb (String.eqb noise_type "gaussian") && negb (is_none noise_sampler)
  then Raise ValueError
  else
    sigma_min ← tensor_min (positive_sigmas sigmas);
    sigma_max ← tensor_max sigmas;
    get_noise_sampler
      [PStr noise_type; PTensor x; PFloat sigma_min; PFloat sigma_max]
      [("seed", PNone); ("use_cpu", PBool true)]%string.

Record SonarEulerAncestral : Type := mkEulerAncestral {
  ea_base : SonarBase;
  ea_model : Tensor -> Tensor -> Tensor;
  ea_sigmas : list R;
  ea_s_in : Tensor;
  ea_noise_sampler : NoiseSampler;
  ea_eta : R;
  ea_s_noise : R
}.

Definition SonarEulerAncestral_step (self : SonarEulerAncestral)
    (step_index : nat) (sample : Tensor) (w : Torch)
  : result (Tensor * R * R * Tensor * SonarEulerAncestral * Torch) :=
  let '(b, w) := init_hist_d (ea_base self) sample w in
  sigma_from ← index_sigmas (ea_sigmas self) step_index;
  sigma_to ← index_sigmas (ea_sigmas self) (step_index + 1);
  let '(sigma_down, sigma_up) :=
    get_ancestral_step sigma_from sigma_to (ea_eta self) in
  let denoised := ea_model self sample (smul sigma_from (ea_s_in self)) in
  let derivative := to_d sample sigma_from denoised in
  let dt := sigma_down - sigma_from in
  '(result_sample, b') ← momentum_step b sample derivative dt;
  let '(result_sample, w) :=
    if Rltb 0 sigma_to then
      let '(noise, w') :=
        NoiseSampler_call (ea_noise_sampler self) sigma_from sigma_to w in
      (tadd result_sample (muls (muls noise (ea_s_noise self)) sigma_up), w')
    else (result_sample, w) in
  Ok (result_sample, sigma_from, sigma_from, denoised,
      mkEulerAncestral b' (ea_model self) (ea_sigmas self) (ea_s_in self)
        (ea_noise_sampler self) (ea_eta self) (ea_s_noise self), w).

(** Everything [SonarEulerAncestral.sampler] does before its loop. *)
Definition SonarEulerAncestral_setup (model : Tensor -> Tensor -> Tensor)
    (x : Tensor) (sigmas : list R) (momentum momentum_hist : R)
    (momentum_init : HistoryType) (noise_type : string)
    (direction eta s_noise : R) (noise_sampler : option NoiseSampler)
  : result SonarEulerAncestral :=
  noise_sampler ← ancestral_noise_sampler x sigmas noise_type noise_sampler;
  s_in ← new_ones_batch x;
  Ok (mkEulerAncestral
        (mkSonarBase HNone momentum_init momentum momentum_hist direction)
        model sigmas s_in noise_sampler eta s_noise).

Definition SonarEulerAncestral_sampler (model : Tensor -> Tensor -> Tensor)
    (x : Tensor) (sigmas : list R) (callback : bool)
    (momentum momentum_hist : R) (momentum_init : HistoryType)
    (noise_type : string) (direction eta s_noise : R)
    (noise_sampler : option NoiseSampler) (w : Torch) : Run :=
  match SonarEulerAncestral_setup model x sigmas momentum momentum_hist
          momentum_init noise_type direction eta s_noise noise_sampler with
  | Raise e => failed e
  | Ok sonar =>
      sampling_loop SonarEulerAncestral_step callback sigmas
        (seq 0 (length sigmas - 1)) sonar x w 0 []
  end.

Record SonarNaive : Type := mkNaive {
  nv_base : SonarBase;
  nv_model : Tensor -> Tensor -> Tensor;
  nv_sigmas : list R;
  nv_s_in : Tensor;
  nv_guidance : SonarGuidanceMixin;
  nv_noise_sampler : NoiseSampler;
  nv_s_noise : R
}.

(** [SonarNaive.__init__]: the [SonarSampler] part, then the mixin's
    constructor. *)
Definition SonarNaive_init (noise_sampler : NoiseSampler) (s_noise : R)
    (guidance_type : option GuidanceType)
    (guidance_latent : option (gmap string (option Tensor)))
    (guidance_factor : R) (model : Tensor -> Tensor -> Tensor)
    (sigmas : list R) (s_in : Tensor) (momentum momentum_hist : R)
    (history_type : HistoryType) (direction : R) : result SonarNaive :=
  let b := mkSonarBase HNone history_type momentum momentum_hist direction in
  g ← SonarGuidanceMixin_init guidance_type guidance_latent guidance_factor;
  Ok (mkNaive b model sigmas s_in g noise_sampler s_noise).

Definition SonarNaive_step (self : SonarNaive) (step_index : nat)
    (sample : Tensor) (w : Torch)
  : result (Tensor * R * R * Tensor * SonarNaive * Torch) :=
  let '(b, w) := init_hist_d (nv_base self) sample w in
  sigma_from ← index_sigmas (nv_sigmas self) step_index;
  sigma_to ← index_sigmas (nv_sigmas self) (step_index + 1);
  let '(sigma_down, sigma_up) := get_ancestral_step sigma_from sigma_to 1 in
  let denoised := nv_model self sample (smul sigma_from (nv_s_in self)) in
  let derivative := to_d sample sigma_from denoised in
  let dt := sigma_down - sigma_from in
  '(result_sample, b') ← momentum_step b sample derivative dt;
  '(result_sample, w) ←
    (if Rltb 0 sigma_to then
       guided ← guidance_step (nv_guidance self) (nv_sigmas self) step_index
                  result_sample denoised;
       let '(noise, w') :=
         NoiseSampler_call (nv_noise_sampler self) sigma_from sigma_to w in
       Ok (tadd guided (muls (muls noise (nv_s_noise self)) sigma_up), w')
     else Ok (result_sample, w));
  Ok (result_sample, sigma_from, sigma_from, denoised,
      mkNaive b' (nv_model self) (nv_sigmas self) (nv_s_in self)
        (nv_guidance self) (nv_noise_sampler self) (nv_s_noise self), w).

(** Everything [SonarNaive.sampler] does before its loop. *)
Definition SonarNaive_setup (model : Tensor -> Tensor -> Tensor)
    (x : Tensor) (sigmas : list R) (momentum momentum_hist : R)
    (momentum_init : HistoryType) (noise_type : string)
    (direction s_noise : R) (noise_sampler : option NoiseSampler)
    (guidance_type : option GuidanceType)
    (guidance_latent : option (gmap string (option Tensor)))
    (guidance_factor : R) : result SonarNaive :=
  noise_sampler ← ancestral_noise_sampler x sigmas noise_type noise_sampler;
  s_in ← new_ones_batch x;
  SonarNaive_init noise_sampler s_noise guidance_type guidance_latent
    guidance_factor model sigmas s_in momentum momentum_hist momentum_init
    direction.

Definition SonarNaive_sampler (model : Tensor -> Tensor -> Tensor)
    (x : Tensor) (sigmas : list R) (callback : bool)
    (momentum momentum_hist : R) (momentum_init : HistoryType)
    (noise_type : string) (direction s_noise : R)
    (noise_sampler : option NoiseSampler)
    (guidance_type : option GuidanceType)
    (guidance_latent : option (gmap string (option Tensor)))
    (guidance_factor : R) (w : Torch) : Run :=
  match SonarNaive_setup model x sigmas momentum momentum_hist momentum_init
          noise_type direction s_noise noise_sampler guidance_type
          guidance_latent guidance_factor with
  | Raise e => failed e
  | Ok sonar =>
      sampling_loop SonarNaive_step callback sigmas
        (seq 0 (length sigmas - 1)) sonar x w 0 []
  end.
End Ancestral.


(** ** noise.py: [CustomNoiseItem] and the rest of [CustomNoiseChain] *)

(** [CustomNoiseItem(factor, **kwargs)].  A keyword named [self] or
    [factor] collides with a positional parameter of [__init__]: the call
    raises [TypeError] before the body runs.  The body stores the factor
    and the set of keyword names, makes every keyword an attribute, and
    wants [noise_type] among them and not [None].  Names are taken to be
    ASCII; a name that begins with two underscores reaches the object's own
    machinery ([__class__], [__dict__]) and is outside this model. *)
Definition CustomNoiseItem_init (factor : R) (kwargs : list (string * pyval))
  : result NoiseObj :=
  if is_bound "self" kwargs || is_bound "factor" kwargs then Raise TypeError
  else
    match lookup_arg "noise_type" kwargs with
    | None => Raise ValueError
    | Some v => if is_pnone v then Raise ValueError
                else Ok (mkNoiseObj factor kwargs)
    end.

(** What [clone] raises when a keyword named [keys] took the place of the
    set of names: the value is iterated for names.  A string gives its
    characters, each read back with [getattr], and the item rebuilt from
    them has no [noise_type]; a tensor gives tensors, which are no names,
    unless it has none to give; nothing else can be iterated. *)
Definition clone_with_shadowed_keys (o : NoiseObj) (v : pyval) : exn :=
  match v with
  | PStr s =>
      if forallb (fun c => is_bound (String c EmptyString) (attrs o))
           (list_ascii_of_string s)
      then ValueError else AttributeError
  | PTensor t =>
      match shape t with
      | [] => TypeError
      | 0%nat :: _ => ValueError
      | _ => TypeError
      end
  | _ => TypeError
  end.

(** [clone] of a [CustomNoiseItem]:
    [self.__class__(self.factor, **{k: getattr(self, k) for k in self.keys})].
    A keyword named [clone] shadows the method with a value that cannot be
    called. *)
Definition CustomNoiseItem_clone (h : store) (a : ref) : result (ref * store) :=
  o ← deref h a;
  if is_bound "clone" (attrs o) then Raise TypeError
  else
    match lookup_arg "keys" (attrs o) with
    | Some v => Raise (clone_with_shadowed_keys o v)
    | None =>
        o' ← CustomNoiseItem_init (factor o) (attrs o);
        Ok (alloc h o')
    end.

(** The keyword names that neither collide with a parameter of the
    constructor nor take the place of what [clone] uses. *)
Definition plain_name (k : string) : bool :=
  negb (String.eqb k "self") && negb (String.eqb k "factor")
  && negb (String.eqb k "keys") && negb (String.eqb k "clone")
  && negb (String.prefix "__" k).

Definition plain_names (kwargs : list (string * pyval)) : bool :=
  forallb (fun kv => plain_name (fst kv)) kwargs.

(** [CustomNoiseItem.make_noise_sampler] *)
Definition CustomNoiseItem_make_noise_sampler (o : NoiseObj) (x : Tensor)
    (sigma_min sigma_max seed : pyval) (cpu normalized : bool)
  : result NoiseSampler :=
  match lookup_arg "noise_type" (attrs o) with
  | None => Raise AttributeError
  | Some noise_type =>
      get_noise_sampler [noise_type; PTensor x; sigma_min; sigma_max]
        [("seed", seed); ("cpu", PBool cpu); ("factor", PFloat (factor o));
         ("normalized", PBool normalized)]%string
  end.

(** [CustomNoiseChain.add] *)
Definition chain_add (items : list ref) (item : option ref)
  : result (list ref) :=
  match item with
  | None => Raise ValueError
  | Some a => Ok (items ++ [a])
  end.




Section ChainCall.
Variable base_generator :
  NoiseType -> Tensor -> R -> R -> Torch -> Tensor * Torch.


End ChainCall.

(** ** noise.py: [ScheduledNoise] *)

Module ScheduledNoise.
Section Bound.
(** The base sampler and, when the spec has one, the fallback sampler, each
    with its own state. *)
Context {St Sf : Type}.
Variable base_bind : Tensor -> St.
Variable ns : St -> R -> R -> Tensor * St.
Variable fallback_bind : Tensor -> Sf.
Variable nsa : Sf -> R -> R -> Tensor * Sf.

Record t : Type := mk {
  factor : R;
  start_sigma : R;
  end_sigma : R;
  normalize : option bool;
  has_fallback : bool
}.

Record closure : Type := mkClosure {
  self : t;
  c_normalize : bool;
  c_x : Tensor;
  ns_state : St;
  nsa_state : option Sf
}.

Definition make_noise_sampler (self : t) (x : Tensor) (normalized : bool)
  : closure :=
  let normalize := match normalize self with
                   | Some b => b
                   | None => normalized
                   end in
  let st := base_bind x in
  mkClosure self normalize x st
    (if has_fallback self then Some (fallback_bind x) else None).

Definition noise_sampler (c : closure) (s sn : R) : Tensor * closure :=
  let '(noise, st, sf) :=
    if Rleb s (start_sigma (self c)) && Rleb (end_sigma (self c)) s
    then let '(n, st') := ns (ns_state c) s sn in (n, st', nsa_state c)
    else match nsa_state c with
         | Some f => let '(n, f') := nsa f s sn in (n, ns_state c, Some f')
         | None => (zeros_like (c_x c), ns_state c, None)
         end in
  (scale_noise noise (factor (self c)) (c_normalize c),
   mkClosure (self c) (c_normalize c) (c_x c) st sf).
End Bound.
End ScheduledNoise.

(** ** noise.py: [CompositeNoise] *)

Definition ones_like (t : Tensor) : Tensor := tmap (fun _ => 1) t.

Module CompositeNoise.
Section Bound.
(** The samplers of [dst] and [src], and the mask brought to the batch and
    resolution of [x]: bilinear [interpolate] followed by
    [repeat_to_batch_size], both of other libraries. *)
Context {Sd Ss : Type}.
Variable dst_bind : Tensor -> Sd.
Variable nsd : Sd -> R -> R -> Tensor * Sd.
Variable src_bind : Tensor -> Ss.
Variable nss : Ss -> R -> R -> Tensor * Ss.
Variable resample : Tensor -> Tensor -> Tensor.

Record t : Type := mk {
  factor : R;
  normalize_src : option bool;
  normalize_dst : option bool;
  mask : Tensor
}.

Record closure : Type := mkClosure {
  self : t;
  c_normalize_src : bool;
  c_normalize_dst : bool;
  c_mask : Tensor;
  c_imask : Tensor;
  dst_state : Sd;
  src_state : Ss
}.

Definition make_noise_sampler (self : t) (x : Tensor) (normalized : bool)
  : closure :=
  let normalize_src := match normalize_src self with
                       | Some b => b
                       | None => normalized
                       end in
  let normalize_dst := match normalize_dst self with
                       | Some b => b
                       | None => normalized
                       end in
  let sd := dst_bind x in
  let ss := src_bind x in
  let mask := resample (clone (mask self)) x in
  let imask := tsub (ones_like mask) mask in
  mkClosure self normalize_src normalize_dst mask imask sd ss.

Definition noise_sampler (c : closure) (s sn : R) : Tensor * closure :=
  let '(nd, sd') := nsd (dst_state c) s sn in
  let noise_dst :=
    tmul (scale_noise nd (factor (self c)) (c_normalize_dst c)) (c_imask c) in
  let '(nsrc, ss') := nss (src_state c) s sn in
  let noise_src :=
    tmul (scale_noise nsrc (factor (self c)) (c_normalize_src c)) (c_mask c) in
  (tadd noise_dst noise_src,
   mkClosure (self c) (c_normalize_src c) (c_normalize_dst c) (c_mask c)
     (c_imask c) sd' ss').
End Bound.
End CompositeNoise.

(** ** noise.py: [ModulatedNoise] *)

Module ModulatedNoise.
Definition MODULATION_DIMS : list (list Z) :=
  [[-3]; [-2; -1]; [-3; -2; -1]]%Z.

(** The three modulation functions; their bodies (standard deviations over
    chosen dimensions, Fourier transforms, quantiles) stay opaque. *)
Inductive modulation : Type :=
| intensity_based_multiplicative_noise
| frequency_based_noise
| spectral_modulate_noise.

(** The [match self.type] of the constructor. *)
Definition modulation_function (type : string) : option modulation :=
  if String.eqb type "intensity" then Some intensity_based_multiplicative_noise
  else if String.eqb type "frequency" then Some frequency_based_noise
  else if String.eqb type "spectral_signum" then Some spectral_modulate_noise
  else None.

Section Bound.
Context {St : Type}.
Variable base_bind : Tensor -> St.
Variable ns : St -> R -> R -> Tensor * St.
Variable modulate :
  modulation -> Tensor -> Tensor -> R -> R -> R -> list Z -> Tensor.

Record t : Type := mk {
  factor : R;
  normalize_result : option bool;
  normalize_noise : option bool;
  normalize_ref : bool;
  type : string;
  strength : R;
  modulation_dims : Z;
  ref_latent_opt : option Tensor
}.

Record closure : Type := mkClosure {
  self : t;
  c_normalize_result : bool;
  c_normalize_noise : bool;
  c_dims : list Z;
  c_x : Tensor;
  c_ref_latent : option Tensor;
  ns_state : St
}.

Definition make_noise_sampler (self : t) (x : Tensor) (normalized : bool)
  : result closure :=
  let normalize_result := match normalize_result self with
                          | Some b => b
                          | None => normalized
                          end in
  let normalize_noise := match normalize_noise self with
                         | Some b => b
                         | None => normalized
                         end in
  dims ← py_index MODULATION_DIMS (modulation_dims self - 1);
  let st := base_bind x in
  Ok (mkClosure self normalize_result normalize_noise dims x
        (match modulation_function (type self) with
         | None => None
         | Some _ => option_map clone (ref_latent_opt self)
         end) st).

Definition noise_sampler (c : closure) (s sn : R) : Tensor * closure :=
  let '(n, st') := ns (ns_state c) s sn in
  let c' := mkClosure (self c) (c_normalize_result c) (c_normalize_noise c)
              (c_dims c) (c_x c) (c_ref_latent c) st' in
  match modulation_function (type (self c)) with
  | None =>
      (scale_noise n (factor (self c))
         (c_normalize_result c || c_normalize_noise c), c')
  | Some f =>
      let reference := match ref_latent_opt (self c), c_ref_latent c with
                       | Some _, Some r => r
                       | _, _ => c_x c
                       end in
      let noise :=
        modulate f (scale_noise reference 1 (normalize_ref (self c)))
          (scale_noise n 1 (c_normalize_noise c)) 1 1 (strength (self c))
          (c_dims c) in
      (scale_noise noise (factor (self c)) (c_normalize_result c), c')
  end.
End Bound.
End ModulatedNoise.

(** ** noise.py: several calls of a [RepeatedNoise] sampler *)

Section RepeatedCalls.
Context {St : Type}.
Variable ns : St -> R -> R -> Tensor * St.
Variable gen_randint : Z -> nat -> Rands.

(** One call per pair [(sigma, sigma_next)], in order; the tensors returned
    and the closure after the last call. *)
Fixpoint repeated_calls (c : RepeatedNoise.closure) (args : list (R * R))
  : result (list Tensor * RepeatedNoise.closure) :=
  match args with
  | [] => Ok ([], c)
  | (s, sn) :: args' =>
      '(n, c1) ← RepeatedNoise.noise_sampler ns gen_randint c s sn;
      '(outs, c2) ← repeated_calls c1 args';
      Ok (n :: outs, c2)
  end.
End RepeatedCalls.

(** ** sonar.py: [add_samplers] *)

Inductive SamplerFn : Type :=
| sampler_of_SonarEuler
| sampler_of_SonarEulerAncestral.

(** What [add_samplers] touches of the host: the list [KSampler.SAMPLERS],
    the attributes set on the module [k_diffusion_sampling], and how often
    that module was reloaded. *)
Record Comfy : Type := mkComfy {
  SAMPLERS : list string;
  k_diffusion_sampling : gmap string SamplerFn;
  reloads : nat
}.

Definition extra_samplers : list (string * SamplerFn) :=
  [("sonar_euler", sampler_of_SonarEuler);
   ("sonar_euler_ancestral", sampler_of_SonarEulerAncestral)]%string.

Definition contains (names : list string) (name : string) : bool :=
  existsb (String.eqb name) names.

Fixpoint add_each (extra : list (string * SamplerFn)) (c : Comfy)
    (added : nat) : Comfy * nat :=
  match extra with
  | [] => (c, added)
  | (name, sampler) :: extra' =>
      if contains (SAMPLERS c) name then add_each extra' c added
      else
        add_each extra'
          (mkComfy (SAMPLERS c ++ [name])
             (<[ String.append "sample_" name := sampler ]>
                (k_diffusion_sampling c))
             (reloads c))
          (S added)
  end.

Definition add_samplers (c : Comfy) : Comfy :=
  let '(c', added) := add_each extra_samplers c 0 in
  if (0 <? added)%nat
  then mkComfy (SAMPLERS c') (k_diffusion_sampling c') (S (reloads c'))
  else c'.

(** A [SonarNaive] object seen as the [SonarEulerAncestral] object with the
    same fields and [eta = 1.0]. *)
Definition SonarNaive_as_ancestral (self : SonarNaive) : SonarEulerAncestral :=
  mkEulerAncestral (nv_base self) (nv_model self) (nv_sigmas self)
    (nv_s_in self) (nv_noise_sampler self) 1 (nv_s_noise self).


(** ** Concrete collaborators, for closed examples *)

(** A denoiser that returns a zero tensor whatever it is given. *)
Definition zero_model (sample sigma : Tensor) : Tensor := zeros_like sample.

Definition still_torch : Torch :=
  mkTorch (fun _ dims => full dims 0) (fun _ => 0%Z) 0.

(** An ancestral-step rule without noise: [(sigma_to, 0)]. *)
Definition plain_ancestral_step (sigma_from sigma_to eta : R) : R * R :=
  (sigma_to, 0).

Definition silent_generator (t : NoiseType) (x : Tensor) (sigma sigma_next : R)
    (w : Torch) : Tensor * Torch :=
  (zeros_like x, w).

(** A latent of one sample, one channel and two pixels. *)
Definition small_latent : Tensor := mkTensor [1; 1; 1; 2]%nat [1; 3].

(** A vector of three entries. *)
Definition ramp : Tensor := mkTensor [3%nat] [1; 2; 3].

(** A tensor of no dimension: one number, as [torch.tensor(1.0)] is. *)
Definition scalar_tensor : Tensor := mkTensor [] [1].

(** A base factory whose sampler has no state and draws the same tensor at
    every call. *)
Definition bind_unit (x : Tensor) : unit := tt.

Definition constant_noise (n : Tensor) (st : unit) (s sn : R) : Tensor * unit :=
  (n, tt).

(** A generator whose every draw selects the roll by one along the first
    dimension. *)
Definition roll_rands (seed : Z) (k : nat) : Rands := mkRands 0 1 0 1.

(** The update the spec compares the integrator with: [x + d*dt]. *)
Definition plain_euler (x d : Tensor) (dt : R) : Tensor := tadd x (muls d dt).

(** * Properties *)

Ltac run_result := unfold mbind, result_bind, rbind; simpl.

(** ** Booleans of the float comparisons *)

Lemma Reqb_true (a b : R) : a = b -> Reqb a b = true.
Proof. intros H. unfold Reqb. destruct (Req_dec_T a b); congruence. Qed.

Lemma Reqb_false (a b : R) : a <> b -> Reqb a b = false.
Proof. intros H. unfold Reqb. destruct (Req_dec_T a b); congruence. Qed.

Lemma Rleb_true (a b : R) : a <= b -> Rleb a b = true.
Proof. intros H. unfold Rleb. destruct (Rle_dec a b); [reflexivity | contradiction]. Qed.

Lemma Rltb_true (a b : R) : a < b -> Rltb a b = true.
Proof. intros H. unfold Rltb. destruct (Rlt_dec a b); [reflexivity | contradiction]. Qed.

Lemma Rltb_false (a b : R) : ~ a < b -> Rltb a b = false.
Proof. intros H. unfold Rltb. destruct (Rlt_dec a b); [contradiction | reflexivity]. Qed.

(** ** The momentum integrator *)

(** C9: with [momentum == 1.0] the integrator returns exactly [x + d*dt],
    the plain Euler update, and hands back the object as it was, whatever
    [momentum_hist], [direction], the history type and the stored history
    are. *)
Theorem momentum_one_is_plain_euler :
  forall (hist : pyhist) (ht : HistoryType) (mh dir : R) (x d : Tensor) (dt : R),
    let self := mkSonarBase hist ht 1 mh dir in
    momentum_step self x d dt = Ok (plain_euler x d dt, self).
Proof.
  intros hist ht mh dir x d dt self.
  unfold momentum_step, plain_euler. simpl.
  rewrite Reqb_true by reflexivity. reflexivity.
Qed.


(** Entry by entry, the stored history is the moving average
    [h * history + (1 - h) * momentum_d]. *)
Lemma history_update_is_moving_average (h p : R) (history d : Tensor) :
  data (tadd (smul (1 - (1 - h)) history)
             (smul (1 - h) (tadd (smul (1 - p) d) (smul p history))))
  = zip_with (fun hv dv => h * hv + (1 - h) * ((1 - p) * dv + p * hv))
      (data history) (data d).
Proof.
  unfold tadd, tmap2, smul, tmap. simpl.
  generalize (data d) as b. induction (data history) as [|u a IH];
    intros [|v b]; simpl; try reflexivity.
  rewrite IH. f_equal. ring.
Qed.


(** ** Pointwise operations on tensors *)

Lemma zip_with_map (f : R -> R -> R) (g h : R -> R) (l : list R) :
  zip_with f (map g l) (map h l) = map (fun v => f (g v) (h v)) l.
Proof. induction l as [|v l IH]; simpl; [reflexivity | now rewrite IH]. Qed.

Lemma zip_with_map_r (f : R -> R -> R) (h : R -> R) (l : list R) :
  zip_with f l (map h l) = map (fun v => f v (h v)) l.
Proof. induction l as [|v l IH]; simpl; [reflexivity | now rewrite IH]. Qed.

Lemma zip_with_length (f : R -> R -> R) (a b : list R) :
  length a = length b -> length (zip_with f a b) = length a.
Proof.
  revert b. induction a as [|u a IH]; intros [|v b] H; simpl in *;
    try reflexivity; try discriminate.
  f_equal. apply IH. now injection H.
Qed.

Lemma zeros_like_tmap (f : R -> R) (t : Tensor) :
  zeros_like (tmap f t) = zeros_like t.
Proof. unfold zeros_like, tmap. simpl. now rewrite map_map. Qed.

(** One Euler update against a zero [denoised]: the sample is scaled by
    [sigma_next / sigma]. *)
Lemma euler_update_zero_denoised (x : Tensor) (sigma sigma_hat sigma_next : R) :
  sigma_hat = sigma -> sigma <> 0 ->
  tadd x (muls (to_d x sigma (zeros_like x)) (sigma_next - sigma_hat))
  = smul (sigma_next / sigma) x.
Proof.
  intros -> Hs. unfold tadd, tmap2, muls, to_d, divs, tsub, tmap2, zeros_like, smul, tmap.
  simpl. f_equal.
  rewrite zip_with_map_r, !map_map, zip_with_map_r.
  apply map_ext. intros v. field. exact Hs.
Qed.

Lemma init_hist_d_keeps (self : SonarBase) (x : Tensor) (w : Torch) :
  momentum (fst (init_hist_d self x w)) = momentum self.
Proof.
  unfold init_hist_d. destruct (history_d self); try reflexivity.
  destruct (history_type self); reflexivity.
Qed.

Lemma no_churn_gamma (n : R) : n <> 0 -> Rmin (0 / n) (sqrt 2 - 1) = 0.
Proof.
  intros Hn. assert (H1 : 1 < sqrt 2).
  { rewrite <- sqrt_1 at 1. apply sqrt_lt_1; lra. }
  replace (0 / n) with 0 by (field; exact Hn).
  apply Rmin_left. lra.
Qed.

(** ** [SonarEuler] without churn *)

(** A step with [s_churn = 0], [momentum = 1.0] and a zero denoiser scales
    the sample by [sigma_next / sigma] and changes nothing else that the
    next step reads. *)
Lemma euler_step_zero_denoiser (self : SonarEuler.t) (i : nat)
    (sample : Tensor) (w : Torch) (sigma sigma_next : R) :
  SonarEuler.s_churn self = 0 ->
  momentum (SonarEuler.base self) = 1 ->
  (forall s g, SonarEuler.model self s g = zeros_like s) ->
  nth_error (SonarEuler.sigmas self) i = Some sigma ->
  nth_error (SonarEuler.sigmas self) (i + 1) = Some sigma_next ->
  sigma <> 0 ->
  exists (b : SonarBase) (w' : Torch),
    momentum b = 1 /\
    SonarEuler.step self i sample w
    = Ok (smul (sigma_next / sigma) sample, sigma, sigma, zeros_like sample,
          SonarEuler.set_base self b, w').
Proof.
  intros Hchurn Hm Hmodel Hs Hn Hsigma.
  unfold SonarEuler.step.
  pose proof (init_hist_d_keeps (SonarEuler.base self) sample w) as Hb.
  destruct (init_hist_d (SonarEuler.base self) sample w) as [b w1].
  simpl in Hb. rewrite Hm in Hb.
  exists b, w1. split; [exact Hb |].
  unfold index_sigmas. rewrite Hs, Hn. run_result.
  assert (Hlen : IZR (Z.of_nat (length (SonarEuler.sigmas self)) - 1) <> 0).
  { apply not_0_IZR.
    assert (i + 1 < length (SonarEuler.sigmas self))%nat
      by (apply nth_error_Some; congruence).
    lia. }
  assert (Hg : (if Rleb (SonarEuler.s_tmin self) sigma
                   && le_xfloat sigma (SonarEuler.s_tmax self)
                then rbind (py_truediv (SonarEuler.s_churn self)
                              (IZR (Z.of_nat (length (SonarEuler.sigmas self)) - 1)))
                           (fun c => Ok (Rmin c (sqrt 2 - 1)))
                else Ok 0) = Ok 0).
  { destruct (Rleb _ _ && le_xfloat _ _); [| reflexivity].
    unfold py_truediv. rewrite Reqb_false by exact Hlen. simpl.
    rewrite Hchurn, no_churn_gamma by exact Hlen. reflexivity. }
  unfold rbind in Hg. rewrite Hg.
  rewrite Rltb_false by lra.
  rewrite Hmodel.
  unfold momentum_step. rewrite Hb, Reqb_true by reflexivity.
  rewrite euler_update_zero_denoised by (try exact Hsigma; ring).
  repeat f_equal. ring.
Qed.

Lemma smul_smul (a b : R) (t : Tensor) : smul a (smul b t) = smul (a * b) t.
Proof.
  unfold smul, tmap. simpl. f_equal. rewrite map_map.
  apply map_ext. intros v. ring.
Qed.

Lemma smul_zero (a : R) (t : Tensor) : a = 0 -> smul a t = zeros_like t.
Proof.
  intros ->. unfold smul, zeros_like, tmap. f_equal.
  apply map_ext. intros v. ring.
Qed.

(** C7: on the schedule [1.0, 0.5, 0.0], with [momentum = 1.0], no churn and
    a denoiser that returns zeros, [SonarEuler.sampler] completes two steps:
    the sample after step 0 is [0.5 * x0] and the tensor returned after
    step 1 is the zero tensor.  The callback, when there is one, sees these
    two samples with [sigma_hat] equal to [sigma]. *)
Theorem euler_zero_denoiser_end_to_end :
  forall (model : Tensor -> Tensor -> Tensor) (x0 : Tensor) (callback : bool)
         (mh : R) (init : HistoryType) (dir s_tmin : R) (s_tmax : xfloat)
         (s_noise : R) (w : Torch),
    (forall s g, model s g = zeros_like s) ->
    shape x0 <> [] ->
    let run := SonarEuler.sampler model x0 [1; 0.5; 0] callback 1 mh init dir
                 0 s_tmin s_tmax s_noise w in
    steps_done run = 2%nat
    /\ callbacks run
       = (if callback
          then [mkEvent (smul 0.5 x0) 0 1 1 (zeros_like x0);
                mkEvent (zeros_like x0) 1 0.5 0.5 (zeros_like x0)]
          else [])
    /\ outcome run = Ok (zeros_like x0).
Proof.
  intros model x0 callback mh init dir s_tmin s_tmax s_noise w Hmodel Hshape run.
  subst run. unfold SonarEuler.sampler, new_ones_batch.
  destruct (shape x0) as [|b rest]; [congruence |].
  set (sonar := SonarEuler.mk _ _ _ _ _ _ _ _).
  change (seq 0 (length [1; 0.5; 0] - 1)) with [0%nat; 1%nat].
  destruct (euler_step_zero_denoiser sonar 0 x0 w 1 0.5)
    as (b0 & w0 & Hb0 & Hstep0); try reflexivity; try exact Hmodel; try lra.
  destruct (euler_step_zero_denoiser (SonarEuler.set_base sonar b0) 1
              (smul (0.5 / 1) x0) w0 0.5 0)
    as (b1 & w1 & Hb1 & Hstep1); try reflexivity; try exact Hmodel;
    try exact Hb0; try lra.
  assert (Hx1 : smul (0.5 / 1) x0 = smul 0.5 x0) by (f_equal; lra).
  assert (Hx2 : smul (0 / 0.5) (smul (0.5 / 1) x0) = zeros_like x0).
  { rewrite smul_smul. apply smul_zero. lra. }
  assert (Hz : zeros_like (smul (0.5 / 1) x0) = zeros_like x0)
    by apply zeros_like_tmap.
  simpl sampling_loop. rewrite Hstep0.
  destruct callback; simpl; rewrite Hstep1; simpl;
    rewrite ?Hx2, ?Hz, ?Hx1; repeat split; reflexivity.
Qed.

Lemma euler_zero_denoiser_end_to_end_witness :
  outcome (SonarEuler.sampler zero_model small_latent [1; 0.5; 0] true 1
             0.75 ZERO 1 0 0 PosInf 1 still_torch)
  = Ok (zeros_like small_latent).
Proof.
  assert (Hm : forall s g, zero_model s g = zeros_like s) by reflexivity.
  assert (Hs : shape small_latent <> []) by (simpl; discriminate).
  exact (proj2 (proj2 (euler_zero_denoiser_end_to_end zero_model small_latent
                         true 0.75 ZERO 1 0 PosInf 1 still_torch Hm Hs))).
Defined.

(** C7 as stated fails on a tensor of no dimension: the sampler reads the
    batch size [x.shape[0]] before its first step, which raises
    [IndexError], so no zero tensor is returned. *)
Lemma euler_zero_denoiser_scalar_input :
  SonarEuler.sampler zero_model scalar_tensor [1; 0.5; 0] true 1 0.75 ZERO 1
    0 0 PosInf 1 still_torch
  = failed IndexError
  /\ outcome (SonarEuler.sampler zero_model scalar_tensor [1; 0.5; 0] true 1
                0.75 ZERO 1 0 0 PosInf 1 still_torch)
     <> Ok (zeros_like scalar_tensor).
Proof.
  unfold SonarEuler.sampler, new_ones_batch, scalar_tensor. simpl.
  split; [reflexivity | discriminate].
Qed.

(** ** [SonarEuler] with churn *)

Lemma churn_gamma_positive (c n : R) :
  0 < c -> 0 < n -> 0 < Rmin (c / n) (sqrt 2 - 1).
Proof.
  intros Hc Hn. assert (H1 : 1 < sqrt 2).
  { rewrite <- sqrt_1 at 1. apply sqrt_lt_1; lra. }
  apply Rmin_glb_lt; [| lra].
  apply Rdiv_lt_0_compat; assumption.
Qed.

(** C5: a [SonarEuler] step in which churn is active ([s_churn > 0] and
    [s_tmin <= sigma <= s_tmax], on a schedule with at least one step) does
    not reach the denoiser: drawing the churn noise hands a shape to
    [torch.randn_like] and the step raises [TypeError]. *)
Theorem euler_step_churn_raises :
  forall (self : SonarEuler.t) (i : nat) (sample : Tensor) (w : Torch)
         (sigma : R),
    nth_error (SonarEuler.sigmas self) i = Some sigma ->
    (2 <= length (SonarEuler.sigmas self))%nat ->
    0 < SonarEuler.s_churn self ->
    SonarEuler.s_tmin self <= sigma ->
    le_xfloat sigma (SonarEuler.s_tmax self) = true ->
    SonarEuler.step self i sample w = Raise TypeError.
Proof.
  intros self i sample w sigma Hs Hlen Hchurn Hmin Hmax.
  unfold SonarEuler.step.
  destruct (init_hist_d (SonarEuler.base self) sample w) as [b w1].
  unfold index_sigmas. rewrite Hs. run_result.
  rewrite Rleb_true by exact Hmin. rewrite Hmax. simpl.
  assert (Hn : 0 < IZR (Z.of_nat (length (SonarEuler.sigmas self)) - 1)).
  { apply IZR_lt. lia. }
  unfold py_truediv. rewrite Reqb_false by lra.
  rewrite Rltb_true by (apply churn_gamma_positive; assumption).
  reflexivity.
Qed.

Lemma euler_step_churn_raises_witness :
  SonarEuler.step
    (SonarEuler.mk (mkSonarBase HNone ZERO 0.95 0.75 1) zero_model [1; 0]
       (full [1%nat] 1) 1 0 PosInf 1)
    0 small_latent still_torch
  = Raise TypeError.
Proof.
  apply (euler_step_churn_raises _ 0%nat small_latent still_torch 1);
    simpl; try reflexivity; try lia; lra.
Defined.

(** ** The guidance engine *)

(** Guidance leaves the sample alone when there is no reference latent, no
    guidance type, or a zero guidance factor. *)
Lemma guidance_step_noop (self : SonarGuidanceMixin) (sigmas : list R)
    (step_index : nat) (x denoised : Tensor) :
  ref_latent self = None \/ guidance_type self = None
  \/ guidance_factor self = 0 ->
  guidance_step self sigmas step_index x denoised = Ok x.
Proof.
  intros [H | [H | H]]; unfold guidance_step; rewrite H; simpl.
  - reflexivity.
  - now rewrite orb_true_r.
  - rewrite Reqb_true by reflexivity. now rewrite orb_true_r.
Qed.

(** A latent dict whose ["samples"] is [None] does construct a mixin
    without a reference latent. *)
Lemma guidance_init_samples_none (gt : option GuidanceType) (gf : R) :
  SonarGuidanceMixin_init gt (Some {[ "samples"%string := None ]}) gf
  = Ok (mkGuidance None gf gt).
Proof. reflexivity. Qed.

(** C6: with [guidance_latent] left at its default [None] the mixin's
    constructor subscripts [None] and raises [TypeError], so no
    [SonarNaive] object comes to exist whose guidance step could return
    its input. *)
Theorem guidance_init_without_latent_raises :
  forall (gt : option GuidanceType) (gf : R),
    SonarGuidanceMixin_init gt None gf = Raise TypeError
    /\ forall (noise_sampler : NoiseSampler) (s_noise : R)
              (model : Tensor -> Tensor -> Tensor) (sigmas : list R)
              (s_in : Tensor) (m mh : R) (ht : HistoryType) (dir : R),
         SonarNaive_init noise_sampler s_noise gt None gf model sigmas s_in
           m mh ht dir = Raise TypeError.
Proof. intros gt gf. split; reflexivity. Qed.

(** ** The ancestral samplers never get past their setup *)

(** [get_noise_sampler] has a parameter [cpu] and none called [use_cpu]. *)
Lemma get_noise_sampler_use_cpu (noise_type x sigma_min sigma_max seed cpu : pyval) :
  get_noise_sampler [noise_type; x; sigma_min; sigma_max]
    [("seed", seed); ("use_cpu", cpu)]%string
  = Raise TypeError.
Proof. reflexivity. Qed.

(** With the keyword spelled [cpu] the same call binds. *)
Lemma get_noise_sampler_cpu (x : Tensor) (sigma_min sigma_max : R) :
  get_noise_sampler
    [PStr "gaussian"; PTensor x; PFloat sigma_min; PFloat sigma_max]
    [("seed", PNone); ("cpu", PBool true)]%string
  = Ok (mkNoiseSampler GAUSSIAN x (PFloat sigma_min) (PFloat sigma_max) PNone 1
          false).
Proof. reflexivity. Qed.

Lemma positive_sigmas_nonempty (sigmas : list R) :
  (exists s, In s sigmas /\ 0 < s) -> positive_sigmas sigmas <> [].
Proof.
  intros (s & Hin & Hs) Hnil.
  assert (H : In s (positive_sigmas sigmas)).
  { apply filter_In. split; [exact Hin | now apply Rltb_true]. }
  rewrite Hnil in H. exact H.
Qed.

Lemma ancestral_noise_sampler_type_error (x : Tensor) (sigmas : list R)
    (noise_type : string) :
  (exists s, In s sigmas /\ 0 < s) ->
  ancestral_noise_sampler x sigmas noise_type None = Raise TypeError.
Proof.
  intros Hpos. unfold ancestral_noise_sampler.
  rewrite andb_false_r.
  pose proof (positive_sigmas_nonempty sigmas Hpos) as Hne.
  destruct (positive_sigmas sigmas) as [|p ps] eqn:Ep; [congruence |].
  destruct sigmas as [|s0 rest]; [discriminate Ep |].
  reflexivity.
Qed.

Lemma positive_sigmas_empty (sigmas : list R) :
  (forall s, In s sigmas -> ~ 0 < s) -> positive_sigmas sigmas = [].
Proof.
  intros Hnone. unfold positive_sigmas.
  induction sigmas as [|v rest IH]; [reflexivity |].
  simpl. rewrite Rltb_false by (apply Hnone; now left).
  apply IH. intros s Hin. apply Hnone. now right.
Qed.

Lemma ancestral_noise_sampler_runtime_error (x : Tensor) (sigmas : list R)
    (noise_type : string) :
  (forall s, In s sigmas -> ~ 0 < s) ->
  ancestral_noise_sampler x sigmas noise_type None = Raise RuntimeError.
Proof.
  intros Hnone. unfold ancestral_noise_sampler.
  rewrite andb_false_r, (positive_sigmas_empty sigmas Hnone). reflexivity.
Qed.

Lemma ancestral_noise_sampler_raises (x : Tensor) (sigmas : list R)
    (noise_type : string) :
  raises (ancestral_noise_sampler x sigmas noise_type None).
Proof.
  unfold ancestral_noise_sampler. rewrite andb_false_r.
  destruct (positive_sigmas sigmas) as [|p ps]; [exact I |].
  destruct sigmas as [|s0 rest]; exact I.
Qed.

(** C1, as the code has it: without an explicit [noise_sampler], both
    ancestral samplers raise before their loop starts and complete no step;
    whenever the schedule holds a positive sigma the exception is the
    [TypeError] of the call [get_noise_sampler(..., use_cpu=True)]; on a
    schedule with no positive sigma the reduction [sigmas[sigmas > 0].min()]
    of an empty tensor raises first, in both samplers, and the exception is
    a [RuntimeError]. *)
Theorem ancestral_samplers_fail_in_setup :
  forall (get_ancestral_step : R -> R -> R -> R * R)
         (base_generator : NoiseType -> Tensor -> R -> R -> Torch -> Tensor * Torch)
         (model : Tensor -> Tensor -> Tensor) (x : Tensor) (sigmas : list R)
         (callback : bool) (m mh : R) (init : HistoryType)
         (noise_type : string) (dir eta s_noise : R)
         (gt : option GuidanceType)
         (latent : option (gmap string (option Tensor))) (gf : R) (w : Torch),
    let ea := SonarEulerAncestral_sampler get_ancestral_step base_generator
                model x sigmas callback m mh init noise_type dir eta s_noise
                None w in
    let nv := SonarNaive_sampler get_ancestral_step base_generator
                model x sigmas callback m mh init noise_type dir s_noise
                None gt latent gf w in
    (steps_done ea = 0%nat /\ callbacks ea = [] /\ raises (outcome ea)
     /\ steps_done nv = 0%nat /\ callbacks nv = [] /\ raises (outcome nv))
    /\ ((exists s, In s sigmas /\ 0 < s) ->
        ea = failed TypeError /\ nv = failed TypeError)
    /\ ((forall s, In s sigmas -> ~ 0 < s) ->
        ea = failed RuntimeError /\ nv = failed RuntimeError).
Proof.
  intros gas bg model x sigmas callback m mh init noise_type dir eta s_noise
    gt latent gf w ea nv.
  subst ea nv.
  unfold SonarEulerAncestral_sampler, SonarEulerAncestral_setup,
    SonarNaive_sampler, SonarNaive_setup.
  split; [| split].
  - pose proof (ancestral_noise_sampler_raises x sigmas noise_type) as Hr.
    destruct (ancestral_noise_sampler x sigmas noise_type None);
      [contradiction |].
    simpl. repeat split; exact I.
  - intros Hpos.
    rewrite (ancestral_noise_sampler_type_error x sigmas noise_type Hpos).
    split; reflexivity.
  - intros Hnone.
    rewrite (ancestral_noise_sampler_runtime_error x sigmas noise_type Hnone).
    split; reflexivity.
Qed.

Lemma ancestral_samplers_fail_in_setup_witness :
  ((exists s, In s [1; 0.5; 0] /\ 0 < s)
   /\ SonarEulerAncestral_sampler plain_ancestral_step silent_generator
        zero_model small_latent [1; 0.5; 0] true 0.95 0.75 ZERO "gaussian" 1 1
        1 None still_torch
      = failed TypeError)
  /\ ((forall s, In s [0] -> ~ 0 < s)
      /\ SonarNaive_sampler plain_ancestral_step silent_generator zero_model
           small_latent [0] true 0.95 0.75 ZERO "gaussian" 1 1 None None None
           0 still_torch
         = failed RuntimeError).
Proof.
  assert (H : exists s, In s [1; 0.5; 0] /\ 0 < s).
  { exists 1. split; [now left | lra]. }
  assert (H0 : forall s, In s [0] -> ~ 0 < s).
  { intros s [<- | []]. lra. }
  split; (split; [assumption |]).
  - exact (proj1 (proj1 (proj2 (ancestral_samplers_fail_in_setup
                                  plain_ancestral_step silent_generator
                                  zero_model small_latent [1; 0.5; 0] true
                                  0.95 0.75 ZERO "gaussian" 1 1 1 None None 0
                                  still_torch)) H)).
  - exact (proj2 (proj2 (proj2 (ancestral_samplers_fail_in_setup
                                  plain_ancestral_step silent_generator
                                  zero_model small_latent [0] true 0.95 0.75
                                  ZERO "gaussian" 1 1 1 None None 0
                                  still_torch)) H0)).
Defined.

(** C1 as stated fails on a schedule without a positive sigma: reducing
    the empty selection [sigmas[sigmas > 0]] raises before
    [get_noise_sampler] is called, and the exception is not a
    [TypeError]. *)
Lemma ancestral_sampler_no_positive_sigma :
  outcome (SonarEulerAncestral_sampler plain_ancestral_step silent_generator
             zero_model small_latent [0] true 0.95 0.75 ZERO "gaussian" 1 1 1
             None still_torch)
  = Raise RuntimeError
  /\ outcome (SonarEulerAncestral_sampler plain_ancestral_step silent_generator
                zero_model small_latent [0] true 0.95 0.75 ZERO "gaussian" 1 1
                1 None still_torch)
     <> Raise TypeError.
Proof.
  assert (H : positive_sigmas [0] = []).
  { unfold positive_sigmas. simpl. now rewrite Rltb_false by lra. }
  unfold SonarEulerAncestral_sampler, SonarEulerAncestral_setup,
    ancestral_noise_sampler.
  rewrite H. simpl. split; [reflexivity | discriminate].
Qed.

(** ** [GuidedNoise] *)

(** Reached through the class, [guidance_linear] takes two arguments. *)
Lemma call_guidance_linear_three (a b c : pyval) :
  call_guidance_linear [a; b; c] = Raise TypeError.
Proof. reflexivity. Qed.

(** What a well-formed call computes: the blend of section 4.5. *)
Lemma call_guidance_linear_two (ref x : Tensor) (g : R) (sigmas : list R)
    (gt : option GuidanceType) :
  call_guidance_linear [PGuidance (mkGuidance (Some ref) g gt) sigmas; PTensor x]
  = Ok (tadd (smul (1 - g) x)
             (smul g (tadd (tmul ref (std_keepdim 1 x)) (mean_keepdim 1 x)))).
Proof. reflexivity. Qed.

Lemma guided_linear_branch {St : Type} (base_bind : Tensor -> St)
    (self : GuidedNoise.t) (x : Tensor) (normalized : bool)
    (c : GuidedNoise.closure) :
  GuidedNoise.method self = "linear"%string ->
  GuidedNoise.make_noise_sampler base_bind self x normalized = Ok c ->
  GuidedNoise.c_branch c = GuidedNoise.linear.
Proof.
  intros Hm. unfold GuidedNoise.make_noise_sampler. rewrite Hm. simpl.
  intros H. injection H as <-. reflexivity.
Qed.

(** C2: a [GuidedNoise] with method ["linear"] binds, but every call of the
    sampler it returns raises [TypeError]: the base noise is drawn, then
    [guidance_linear] is called with three positional arguments where it
    takes [(self, x)].  No tensor is returned. *)
Theorem guided_linear_sampler_raises :
  forall (St : Type) (base_bind : Tensor -> St)
         (ns : St -> R -> R -> Tensor * St) (self : GuidedNoise.t)
         (x : Tensor) (normalized : bool) (c : GuidedNoise.closure)
         (s sn : R),
    GuidedNoise.method self = "linear"%string ->
    GuidedNoise.make_noise_sampler base_bind self x normalized = Ok c ->
    GuidedNoise.noise_sampler ns c s sn = Raise TypeError.
Proof.
  intros St base_bind ns self x normalized c s sn Hm Hc.
  unfold GuidedNoise.noise_sampler.
  rewrite (guided_linear_branch base_bind self x normalized c Hm Hc).
  destruct (ns (GuidedNoise.ns_state c) s sn) as [n st'].
  rewrite call_guidance_linear_three. reflexivity.
Qed.

Lemma guided_linear_sampler_raises_witness :
  GuidedNoise.noise_sampler (constant_noise small_latent)
    (GuidedNoise.mkClosure
       (GuidedNoise.mk 1 0.5 small_latent "linear" None false)
       GuidedNoise.linear true small_latent
       (scale_noise (clone small_latent) 1 false) tt)
    1 0.5
  = Raise TypeError.
Proof.
  apply (guided_linear_sampler_raises unit bind_unit (constant_noise small_latent)
           (GuidedNoise.mk 1 0.5 small_latent "linear" None false)
           small_latent true);
    reflexivity.
Defined.

(** ** [RepeatedNoise] *)

Lemma py_index_nat {A : Type} (l : list A) (i : nat) (a : A) :
  nth_error l i = Some a -> py_index l (Z.of_nat i) = Ok a.
Proof.
  intros H. unfold py_index.
  assert (Hlt : (Z.of_nat i <? 0)%Z = false) by (apply Z.ltb_ge; lia).
  rewrite Hlt, Hlt, Nat2Z.id, H. reflexivity.
Qed.

Lemma py_index_app_last {A : Type} (l : list A) (a : A) :
  py_index (l ++ [a]) (Z.of_nat (length l)) = Ok a.
Proof.
  apply py_index_nat. rewrite nth_error_app2 by lia.
  now rewrite Nat.sub_diag.
Qed.

Lemma py_mod_pos (a b : Z) : (0 < b)%Z -> py_mod a b = Ok (a mod b)%Z.
Proof.
  intros Hb. unfold py_mod.
  assert (H : (b =? 0)%Z = false) by (apply Z.eqb_neq; lia).
  now rewrite H.
Qed.

Section Repeated.
Context {St : Type}.
Variable ns : St -> R -> R -> Tensor * St.
Variable gen_randint : Z -> nat -> Rands.

Import RepeatedNoise.

(** C3, what the code does instead: with [permute=False] the call returns
    the clone of the selected entry itself, the fresh one while the cache
    fills and [cache[rands[0] % repeat_length]] afterwards; [factor] and
    [normalize] are not applied. *)
Theorem repeated_without_permute_skips_scaling :
  forall (c : closure) (s sn : R),
    permute (self c) = false ->
    ((Z.of_nat (length (noise_items c)) < repeat_length (self c))%Z ->
     noise_sampler ns gen_randint c s sn
     = Ok (clone (fst (ns (ns_state c) s sn)),
           mkClosure (self c) (c_normalize c)
             (noise_items c ++ [fst (ns (ns_state c) s sn)]) (gen_seed c)
             (S (gen_calls c)) (snd (ns (ns_state c) s sn))))
    /\
    ((0 < repeat_length (self c) <= Z.of_nat (length (noise_items c)))%Z ->
     exists n : Tensor,
       nth_error (noise_items c)
         (Z.to_nat (rands0 (gen_randint (gen_seed c) (gen_calls c))
                    mod repeat_length (self c)))
       = Some n
       /\ noise_sampler ns gen_randint c s sn
          = Ok (clone n,
                mkClosure (self c) (c_normalize c) (noise_items c) (gen_seed c)
                  (S (gen_calls c)) (ns_state c))).
Proof.
  intros c s sn Hp. split.
  - intros Hlt. unfold noise_sampler.
    apply Z.ltb_lt in Hlt. rewrite Hlt.
    destruct (ns (ns_state c) s sn) as [n st']. run_result.
    rewrite py_index_app_last, Hp. reflexivity.
  - intros [Hpos Hle]. unfold noise_sampler.
    assert (Hge : (Z.of_nat (length (noise_items c)) <? repeat_length (self c))%Z
                  = false) by (apply Z.ltb_ge; lia).
    rewrite Hge, py_mod_pos by exact Hpos. run_result.
    set (idx := (rands0 (gen_randint (gen_seed c) (gen_calls c))
                 mod repeat_length (self c))%Z).
    assert (Hidx : (0 <= idx < repeat_length (self c))%Z)
      by (apply Z.mod_pos_bound; exact Hpos).
    destruct (nth_error (noise_items c) (Z.to_nat idx)) as [n|] eqn:En.
    + exists n. split; [reflexivity |].
      rewrite <- (Z2Nat.id idx) by lia.
      rewrite (py_index_nat _ _ _ En), Hp. reflexivity.
    + apply nth_error_None in En. lia.
Qed.

(** C4, as the code has it: with [permute=True] and a cache that is not
    full, the call draws a fresh tensor from the base sampler, appends it to
    the cache, and puts it through the permute transform chosen by the
    draws (copy, flip or roll) before scaling, as it does with a cached
    entry; the transform succeeds on a tensor with at least one dimension
    and no empty one. *)
Theorem repeated_fresh_entry_is_permuted :
  forall (c : closure) (s sn : R),
    permute (self c) = true ->
    (Z.of_nat (length (noise_items c)) < repeat_length (self c))%Z ->
    let rands := gen_randint (gen_seed c) (gen_calls c) in
    let n := fst (ns (ns_state c) s sn) in
    let c' := mkClosure (self c) (c_normalize c) (noise_items c ++ [n])
                (gen_seed c) (S (gen_calls c)) (snd (ns (ns_state c) s sn)) in
    noise_sampler ns gen_randint c s sn
    = rbind (permuted rands n)
        (fun noise' =>
           Ok (scale_noise noise' (factor (self c)) (c_normalize c), c'))
    /\ (shape n <> [] -> Forall (fun d => d <> 0%nat) (shape n) ->
        exists noise', permuted rands n = Ok noise').
Proof.
  intros c s sn Hp Hlt rands n c'. subst rands n c'. split.
  - unfold noise_sampler. apply Z.ltb_lt in Hlt. rewrite Hlt.
    destruct (ns (ns_state c) s sn) as [n st']. run_result.
    rewrite py_index_app_last, Hp. reflexivity.
  - intros Hshape Hdims.
    set (n := fst (ns (ns_state c) s sn)) in *.
    set (rands := gen_randint (gen_seed c) (gen_calls c)).
    unfold permuted.
    assert (Hnd : (0 < Z.of_nat (length (shape n)))%Z).
    { destruct (shape n); [congruence | simpl; lia]. }
    unfold mbind, result_bind.
    rewrite py_mod_pos by (unfold permute_options; lia). cbv beta iota delta [rbind].
    destruct (rands1 rands mod permute_options =? 0)%Z.
    + destruct (rands2 rands <=? u32_max / 10)%Z; [eexists; reflexivity |].
      rewrite py_mod_pos by lia. eexists; reflexivity.
    + destruct (rands1 rands mod permute_options =? 1)%Z;
        [| eexists; reflexivity].
      rewrite py_mod_pos by exact Hnd. cbv beta iota.
      set (dim := (rands2 rands mod Z.of_nat (length (shape n)))%Z).
      assert (Hdim : (0 <= dim < Z.of_nat (length (shape n)))%Z)
        by (apply Z.mod_pos_bound; exact Hnd).
      destruct (nth_error (shape n) (Z.to_nat dim)) as [size|] eqn:Es.
      * rewrite <- (Z2Nat.id dim) by lia.
        rewrite (py_index_nat _ _ _ Es). cbv beta iota.
        assert (Hsize : size <> 0%nat).
        { rewrite List.Forall_forall in Hdims. apply Hdims.
          eapply nth_error_In. exact Es. }
        rewrite py_mod_pos by lia. eexists; reflexivity.
      * apply nth_error_None in Es. lia.
Qed.
End Repeated.

Lemma repeated_without_permute_skips_scaling_witness :
  RepeatedNoise.noise_sampler (constant_noise small_latent) roll_rands
    (RepeatedNoise.mkClosure (RepeatedNoise.mk 2 (Some false) 1 false) false
       [] 0 0 tt) 1 0.5
  = Ok (clone small_latent,
        RepeatedNoise.mkClosure (RepeatedNoise.mk 2 (Some false) 1 false) false
          [small_latent] 0 1 tt).
Proof.
  apply (proj1 (repeated_without_permute_skips_scaling
                  (constant_noise small_latent) roll_rands
                  (RepeatedNoise.mkClosure
                     (RepeatedNoise.mk 2 (Some false) 1 false) false [] 0 0 tt)
                  1 0.5 eq_refl)).
  simpl. lia.
Defined.

(** The tensor returned there is the cache entry, not the entry times the
    factor [2] that the final scaling would give. *)
Lemma repeated_without_permute_unscaled :
  data (clone small_latent) = [1; 3]
  /\ data (scale_noise small_latent 2 false) = [1 * 2; 3 * 2]
  /\ clone small_latent <> scale_noise small_latent 2 false.
Proof.
  repeat split. intros H.
  apply (f_equal data) in H. simpl in H.
  injection H as H1 H3. lra.
Qed.

Lemma repeated_fresh_entry_is_permuted_witness :
  RepeatedNoise.noise_sampler (constant_noise ramp) roll_rands
    (RepeatedNoise.mkClosure (RepeatedNoise.mk 1 (Some false) 2 true) false
       [] 0 0 tt) 1 0.5
  = rbind (RepeatedNoise.permuted (roll_rands 0 0) ramp)
      (fun noise' =>
         Ok (scale_noise noise' 1 false,
             RepeatedNoise.mkClosure (RepeatedNoise.mk 1 (Some false) 2 true)
               false [ramp] 0 1 tt)).
Proof.
  assert (H : (Z.of_nat (length (@nil Tensor)) < 2)%Z) by (simpl; lia).
  exact (proj1 (repeated_fresh_entry_is_permuted (constant_noise ramp)
                  roll_rands
                  (RepeatedNoise.mkClosure
                     (RepeatedNoise.mk 1 (Some false) 2 true) false [] 0 0 tt)
                  1 0.5 eq_refl H)).
Defined.

(** C4 as stated fails: on the first call of a sampler bound with
    [permute=True], with draws that select the roll, the fresh tensor
    [1, 2, 3] is appended to the cache but what is returned is its roll
    [3, 1, 2], not the tensor used directly. *)
Lemma repeated_first_use_is_rolled :
  exists c' : RepeatedNoise.closure,
    RepeatedNoise.noise_sampler (constant_noise ramp) roll_rands
      (RepeatedNoise.mkClosure (RepeatedNoise.mk 1 (Some false) 2 true) false
         [] 0 0 tt) 1 0.5
    = Ok (mkTensor [3%nat] [3 * 1; 1 * 1; 2 * 1], c')
    /\ RepeatedNoise.noise_items c' = [ramp]
    /\ mkTensor [3%nat] [3 * 1; 1 * 1; 2 * 1] <> scale_noise ramp 1 false.
Proof.
  eexists. split; [reflexivity |]. split; [reflexivity |].
  intros H. apply (f_equal data) in H. simpl in H.
  injection H as H1 H2 H3. lra.
Qed.

(** ** [CustomNoiseChain]: factor and [rescaled] *)

Lemma resolves_grow (h extra : store) (items : list ref) (objs : list NoiseObj) :
  resolves h items objs -> resolves (h ++ extra) items objs.
Proof.
  unfold resolves. induction 1 as [|a o items objs Ha _ IH]; constructor; auto.
  rewrite lookup_app_l; [exact Ha |]. eapply lookup_lt_Some. exact Ha.
Qed.


Lemma sum_abs_factors_resolved (h : store) (items : list ref)
    (objs : list NoiseObj) (acc : R) :
  resolves h items objs ->
  sum_abs_factors h items acc = Ok (acc + sum_list (abs_factors objs)).
Proof.
  intros H. revert acc.
  induction H as [|a o items objs Ha _ IH]; intros acc; simpl.
  - f_equal. ring.
  - unfold deref. rewrite Ha. run_result. rewrite IH. f_equal. ring.
Qed.

Lemma chain_factor_resolved (h : store) (items : list ref)
    (objs : list NoiseObj) :
  resolves h items objs ->
  chain_factor h items = Ok (sum_list (abs_factors objs)).
Proof.
  intros H. unfold chain_factor.
  rewrite (sum_abs_factors_resolved h items objs 0 H). f_equal. ring.
Qed.

Lemma chain_clone_resolved (h : store) (items : list ref)
    (objs : list NoiseObj) :
  resolves h items objs ->
  chain_clone h items = Ok (seq (length h) (length objs), h ++ objs).
Proof.
  revert h objs.
  induction items as [|a items IH]; intros h objs H;
    inversion H as [|a' o items' objs' Ha Hrest]; subst; simpl.
  - now rewrite app_nil_r.
  - unfold item_clone, deref. rewrite Ha. run_result.
    assert (Ho : mkNoiseObj (factor o) (attrs o) = o) by now destruct o.
    rewrite Ho.
    rewrite (IH (h ++ [o]) objs' (resolves_grow h [o] items objs' Hrest)).
    rewrite length_app, <- app_assoc. simpl. now rewrite Nat.add_1_r.
Qed.






Lemma rescale_divisor_zero_total (scale : R) : rescale_divisor 0 scale = 1.
Proof.
  unfold rescale_divisor. rewrite Reqb_true; [reflexivity |].
  unfold Rdiv. ring.
Qed.

Lemma rescale_divisor_nonzero_total (total scale : R) :
  total <> 0 -> scale <> 0 -> rescale_divisor total scale = total / scale.
Proof.
  intros Ht Hs. unfold rescale_divisor. rewrite Reqb_false; [reflexivity |].
  intros H. apply Ht.
  replace total with (total / scale * scale) by (field; exact Hs).
  rewrite H. ring.
Qed.






(** The property [factor] and the method [clone] of a chain held as a
    child are those of the chain. *)
Lemma child_factor_subchain (h : store) (items : list child) :
  child_factor h (SubChain items) = CustomNoiseChain_factor h items.
Proof.
  unfold CustomNoiseChain_factor. simpl. generalize 0.
  induction items as [|i items IH]; intros acc; simpl; [reflexivity |].
  destruct (child_factor h i) as [f | e]; run_result; [apply IH | reflexivity].
Qed.








(** * Further properties of the code *)

(** ** The history of the momentum integrator *)

(** X1: [init_hist_d] leaves a history that is not [None], and a second
    call, whatever sample it is given, changes neither the object nor the
    generator. *)
Theorem init_hist_d_once :
  forall (self : SonarBase) (x x' : Tensor) (w : Torch),
    let r := init_hist_d self x w in
    history_d (fst r) <> HNone
    /\ init_hist_d (fst r) x' (snd r) = r.
Proof.
  intros self x x' w r. subst r. unfold init_hist_d.
  destruct (history_d self) eqn:Eh.
  - destruct (history_type self); simpl; split; try discriminate; reflexivity.
  - simpl. rewrite Eh. split; [discriminate | reflexivity].
  - simpl. rewrite Eh. split; [discriminate | reflexivity].
Qed.

(** Before [init_hist_d] ran, a momentum step with [momentum <> 1.0]
    raises [TypeError]: the history it multiplies is still [None]. *)
Theorem momentum_step_uninitialised_raises :
  forall (self : SonarBase) (x d : Tensor) (dt : R),
    history_d self = HNone ->
    momentum self <> 1 ->
    momentum_step self x d dt = Raise TypeError.
Proof.
  intros self x d dt Hh Hm. unfold momentum_step.
  rewrite Reqb_false by exact Hm. rewrite Hh. reflexivity.
Qed.

Lemma momentum_step_uninitialised_raises_witness :
  momentum_step (mkSonarBase HNone ZERO 0.95 0.75 1) small_latent small_latent
    (-1)
  = Raise TypeError.
Proof.
  apply momentum_step_uninitialised_raises; simpl; [reflexivity | lra].
Defined.

Lemma same_shape_tmap (f : R -> R) (a b : Tensor) :
  same_shape a b -> same_shape (tmap f a) b.
Proof.
  intros [Hs Hl]. split; simpl; [exact Hs | now rewrite length_map].
Qed.

Lemma same_shape_tmap2 (f : R -> R -> R) (a b c : Tensor) :
  same_shape a c -> same_shape b c -> same_shape (tmap2 f a b) c.
Proof.
  intros [Hs Hl] [Hs' Hl']. split; simpl; [exact Hs |].
  rewrite zip_with_length; [exact Hl | congruence].
Qed.

Lemma same_shape_refl (a : Tensor) : same_shape a a.
Proof. split; reflexivity. Qed.

(** X2: when the derivative and a tensor history have the shape of the
    sample, a momentum step with an initialised history returns a sample
    of that shape and leaves a history that is initialised and, when it is
    a tensor, again of that shape; with [momentum <> 1.0] the new history
    is a tensor.  The settings of the integrator are not touched. *)
Theorem momentum_step_keeps_history :
  forall (self : SonarBase) (x d : Tensor) (dt : R),
    history_d self <> HNone ->
    same_shape d x ->
    (forall t : Tensor, history_d self = HTensor t -> same_shape t x) ->
    exists (x' : Tensor) (self' : SonarBase),
      momentum_step self x d dt = Ok (x', self')
      /\ same_shape x' x
      /\ history_d self' <> HNone
      /\ (forall t : Tensor, history_d self' = HTensor t -> same_shape t x)
      /\ (momentum self <> 1 -> exists t : Tensor, history_d self' = HTensor t)
      /\ history_type self' = history_type self
      /\ momentum self' = momentum self
      /\ momentum_hist self' = momentum_hist self
      /\ direction self' = direction self.
Proof.
  intros self x d dt Hh Hd Ht. unfold momentum_step.
  destruct (Reqb (momentum self) 1) eqn:Em.
  - exists (tadd x (muls d dt)), self. split; [reflexivity |].
    split.
    { apply same_shape_tmap2; [apply same_shape_refl |].
      now apply same_shape_tmap. }
    split; [exact Hh |]. split; [exact Ht |].
    split.
    { intros Hm. rewrite Reqb_false in Em by exact Hm. discriminate. }
    repeat split.
  - destruct (history_d self) as [| z | h] eqn:Eh; [congruence | |].
    + eexists; eexists; split; [reflexivity |].
      assert (Hmd : same_shape
                      (adds (smul (1 - (1 - momentum self) * direction self) d)
                         ((1 - momentum self) * direction self * IZR z)) x)
        by (apply same_shape_tmap, same_shape_tmap; exact Hd).
      split.
      { apply same_shape_tmap2; [apply same_shape_refl |].
        now apply same_shape_tmap. }
      split; [simpl; discriminate |].
      split.
      { simpl. intros t Et. injection Et as <-.
        destruct (Z.eqb z 0); [exact Hmd |].
        now apply same_shape_tmap, same_shape_tmap. }
      split; [intros _; simpl; eexists; reflexivity |].
      repeat split.
    + specialize (Ht h eq_refl).
      eexists; eexists; split; [reflexivity |].
      assert (Hmd : same_shape
                      (tadd (smul (1 - (1 - momentum self) * direction self) d)
                         (smul ((1 - momentum self) * direction self) h)) x)
        by (apply same_shape_tmap2; apply same_shape_tmap; assumption).
      split.
      { apply same_shape_tmap2; [apply same_shape_refl |].
        now apply same_shape_tmap. }
      split; [simpl; discriminate |].
      split.
      { simpl. intros t Et. injection Et as <-.
        apply same_shape_tmap2; apply same_shape_tmap; assumption. }
      split; [intros _; simpl; eexists; reflexivity |].
      repeat split.
Qed.

Lemma momentum_step_keeps_history_witness :
  history_d (mkSonarBase (HTensor small_latent) ZERO 0.95 0.75 1) <> HNone
  /\ same_shape small_latent small_latent
  /\ exists (x' : Tensor) (self' : SonarBase),
       momentum_step (mkSonarBase (HTensor small_latent) ZERO 0.95 0.75 1)
         small_latent small_latent (-1) = Ok (x', self')
       /\ same_shape x' small_latent
       /\ history_d self' <> HNone
       /\ (forall t : Tensor,
             history_d self' = HTensor t -> same_shape t small_latent)
       /\ (0.95 <> 1 -> exists t : Tensor, history_d self' = HTensor t)
       /\ history_type self' = ZERO
       /\ momentum self' = 0.95
       /\ momentum_hist self' = 0.75
       /\ direction self' = 1.
Proof.
  assert (Hh : history_d (mkSonarBase (HTensor small_latent) ZERO 0.95 0.75 1)
               <> HNone) by (simpl; discriminate).
  assert (Hs : same_shape small_latent small_latent) by (split; reflexivity).
  split; [exact Hh |]. split; [exact Hs |].
  apply (momentum_step_keeps_history
           (mkSonarBase (HTensor small_latent) ZERO 0.95 0.75 1) small_latent
           small_latent (-1) Hh Hs).
  simpl. intros t Et. injection Et as <-. exact Hs.
Defined.

(** ** [SonarEuler]: schedules, deterministic steps, the callback *)

(** X3: on a schedule of fewer than two sigmas [SonarEuler.sampler] returns
    the sample it was given, completes no step and calls nothing, as long
    as the sample has a batch dimension; a sample without any dimension
    makes it raise [IndexError] on every schedule. *)
Theorem euler_sampler_degenerate_inputs :
  forall (model : Tensor -> Tensor -> Tensor) (x : Tensor) (sigmas : list R)
         (callback : bool) (m mh : R) (init : HistoryType)
         (dir s_churn s_tmin : R) (s_tmax : xfloat) (s_noise : R) (w : Torch),
    (shape x <> [] -> (length sigmas <= 1)%nat ->
     SonarEuler.sampler model x sigmas callback m mh init dir s_churn s_tmin
       s_tmax s_noise w = mkRun 0 [] (Ok x))
    /\ (shape x = [] ->
        SonarEuler.sampler model x sigmas callback m mh init dir s_churn
          s_tmin s_tmax s_noise w = failed IndexError).
Proof.
  intros. unfold SonarEuler.sampler, new_ones_batch. split.
  - intros Hs Hl. destruct (shape x); [congruence |].
    replace (length sigmas - 1)%nat with 0%nat by lia. reflexivity.
  - intros ->. reflexivity.
Qed.

Lemma euler_sampler_degenerate_inputs_witness :
  SonarEuler.sampler zero_model small_latent [0] true 0.95 0.75 ZERO 1 0 0
    PosInf 1 still_torch
  = mkRun 0 [] (Ok small_latent).
Proof.
  apply (proj1 (euler_sampler_degenerate_inputs zero_model small_latent [0]
                  true 0.95 0.75 ZERO 1 0 0 PosInf 1 still_torch));
    simpl; [discriminate | lia].
Defined.

(** X4: a step in which churn is off ([s_churn = 0], or sigma outside
    [s_tmin, s_tmax]) is the deterministic Euler step: [sigma_hat] is
    [sigma], the denoiser sees the sample as it was given, no noise is
    drawn, and the update is the momentum step along
    [to_d(sample, sigma, denoised)] with [dt = sigma_next - sigma]. *)
Theorem euler_step_without_churn :
  forall (self : SonarEuler.t) (i : nat) (sample : Tensor) (w : Torch)
         (sigma sigma_next : R),
    nth_error (SonarEuler.sigmas self) i = Some sigma ->
    nth_error (SonarEuler.sigmas self) (i + 1) = Some sigma_next ->
    SonarEuler.s_churn self = 0
    \/ sigma < SonarEuler.s_tmin self
    \/ le_xfloat sigma (SonarEuler.s_tmax self) = false ->
    SonarEuler.step self i sample w
    = (let '(b, w1) := init_hist_d (SonarEuler.base self) sample w in
       let denoised :=
         SonarEuler.model self sample (smul sigma (SonarEuler.s_in self)) in
       match momentum_step b sample (to_d sample sigma denoised)
               (sigma_next - sigma) with
       | Ok (x', b') =>
           Ok (x', sigma, sigma, denoised, SonarEuler.set_base self b', w1)
       | Raise e => Raise e
       end).
Proof.
  intros self i sample w sigma sigma_next Hs Hn Hoff.
  unfold SonarEuler.step.
  destruct (init_hist_d (SonarEuler.base self) sample w) as [b w1].
  unfold index_sigmas. rewrite Hs, Hn. run_result.
  assert (Hlen : IZR (Z.of_nat (length (SonarEuler.sigmas self)) - 1) <> 0).
  { apply not_0_IZR.
    assert (i + 1 < length (SonarEuler.sigmas self))%nat
      by (apply nth_error_Some; congruence).
    lia. }
  assert (Hg : (if Rleb (SonarEuler.s_tmin self) sigma
                   && le_xfloat sigma (SonarEuler.s_tmax self)
                then rbind (py_truediv (SonarEuler.s_churn self)
                              (IZR (Z.of_nat (length (SonarEuler.sigmas self)) - 1)))
                           (fun c => Ok (Rmin c (sqrt 2 - 1)))
                else Ok 0) = Ok 0).
  { destruct Hoff as [Hc | [Hlt | Hmax]].
    - destruct (Rleb _ _ && le_xfloat _ _); [| reflexivity].
      unfold py_truediv. rewrite Reqb_false by exact Hlen. simpl.
      rewrite Hc, no_churn_gamma by exact Hlen. reflexivity.
    - unfold Rleb. destruct (Rle_dec (SonarEuler.s_tmin self) sigma);
        [lra | reflexivity].
    - rewrite Hmax, andb_false_r. reflexivity. }
  unfold rbind in Hg. rewrite Hg.
  rewrite Rltb_false by lra.
  replace (sigma * (0 + 1)) with sigma by ring.
  reflexivity.
Qed.

Lemma euler_step_without_churn_witness :
  SonarEuler.step
    (SonarEuler.mk (mkSonarBase HNone ZERO 1 0.75 1) zero_model [1; 0]
       (full [1%nat] 1) 0 0 PosInf 1)
    0 small_latent still_torch
  = Ok (tadd small_latent
          (muls (to_d small_latent 1 (zeros_like small_latent)) (0 - 1)),
        1, 1, zeros_like small_latent,
        SonarEuler.mk (mkSonarBase (HInt 0) ZERO 1 0.75 1) zero_model [1; 0]
          (full [1%nat] 1) 0 0 PosInf 1,
        still_torch).
Proof.
  assert (H := euler_step_without_churn
                 (SonarEuler.mk (mkSonarBase HNone ZERO 1 0.75 1) zero_model
                    [1; 0] (full [1%nat] 1) 0 0 PosInf 1)
                 0%nat small_latent still_torch 1 0 eq_refl eq_refl
                 (or_introl eq_refl)).
  rewrite H. simpl. unfold momentum_step. simpl.
  rewrite Reqb_true by reflexivity. reflexivity.
Defined.

(** The loop counts its steps and reports each completed one. *)
Lemma sampling_loop_counts {Self : Type}
    (step : Self -> nat -> Tensor -> Torch ->
            result (Tensor * R * R * Tensor * Self * Torch))
    (callback : bool) (sigmas : list R) (n : nat) :
  forall (k : nat) (sonar : Self) (x : Tensor) (w : Torch) (log : list Event),
    (k + n <= length sigmas)%nat ->
    let run := sampling_loop step callback sigmas (seq k n) sonar x w k log in
    (k <= steps_done run <= k + n)%nat
    /\ (forall t, outcome run = Ok t -> steps_done run = (k + n)%nat)
    /\ (exists fresh : list Event,
          callbacks run = log ++ fresh
          /\ map ev_i fresh
             = (if callback then seq k (steps_done run - k) else [])
          /\ Forall (fun e => nth_error sigmas (ev_i e) = Some (ev_sigma e))
               fresh).
Proof.
  induction n as [|n IH]; intros k sonar x w log Hk; simpl.
  - split; [lia |]. split; [intros; lia |].
    exists []. rewrite app_nil_r, Nat.sub_diag.
    destruct callback; repeat split; constructor.
  - destruct (step sonar k x w) as [[[[[[x' sigma] sigma_hat] denoised] sonar'] w'] | e];
      simpl.
    2:{ split; [lia |]. split; [discriminate |].
        exists []. rewrite app_nil_r, Nat.sub_diag.
        destruct callback; repeat split; constructor. }
    destruct callback.
    + unfold index_sigmas.
      destruct (nth_error sigmas k) as [si |] eqn:Ek.
      2:{ apply nth_error_None in Ek. lia. }
      specialize (IH (S k) sonar' x' w'
                    (log ++ [mkEvent x' k si sigma_hat denoised])
                    ltac:(lia)).
      simpl in IH. destruct IH as (Hb & Hok & fresh & Hc & Hi & Hf).
      split; [lia |]. split; [intros t Ht; rewrite (Hok t Ht); lia |].
      exists (mkEvent x' k si sigma_hat denoised :: fresh).
      split; [rewrite Hc, <- app_assoc; reflexivity |].
      split.
      * simpl. rewrite Hi.
        replace (steps_done
                   (sampling_loop step true sigmas (seq (S k) n) sonar' x' w'
                      (S k) (log ++ [mkEvent x' k si sigma_hat denoised])) - k)%nat
          with (S (steps_done
                     (sampling_loop step true sigmas (seq (S k) n) sonar' x' w'
                        (S k) (log ++ [mkEvent x' k si sigma_hat denoised]))
                   - S k))%nat by lia.
        reflexivity.
      * constructor; [exact Ek | exact Hf].
    + specialize (IH (S k) sonar' x' w' log ltac:(lia)).
      simpl in IH. destruct IH as (Hb & Hok & fresh & Hc & Hi & Hf).
      split; [lia |]. split; [intros t Ht; rewrite (Hok t Ht); lia |].
      exists fresh. repeat split; assumption.
Qed.

(** X5: whatever the denoiser and the settings, a run of
    [SonarEuler.sampler] completes at most [len(sigmas) - 1] steps and
    exactly that many when it returns a tensor; with a callback, the
    callback is called once per completed step, with [i = 0, 1, ...] in
    order and [sigma = sigmas[i]]; without one nothing is reported. *)
Theorem euler_sampler_steps_and_callbacks :
  forall (model : Tensor -> Tensor -> Tensor) (x : Tensor) (sigmas : list R)
         (callback : bool) (m mh : R) (init : HistoryType)
         (dir s_churn s_tmin : R) (s_tmax : xfloat) (s_noise : R) (w : Torch),
    let run := SonarEuler.sampler model x sigmas callback m mh init dir
                 s_churn s_tmin s_tmax s_noise w in
    (steps_done run <= length sigmas - 1)%nat
    /\ (forall t, outcome run = Ok t -> steps_done run = (length sigmas - 1)%nat)
    /\ map ev_i (callbacks run)
       = (if callback then seq 0 (steps_done run) else [])
    /\ Forall (fun e => nth_error sigmas (ev_i e) = Some (ev_sigma e))
         (callbacks run).
Proof.
  intros. subst run. unfold SonarEuler.sampler.
  destruct (new_ones_batch x) as [s_in | e].
  - match goal with
    | |- context [sampling_loop ?st ?cb ?sg (seq 0 ?n) ?so ?xx ?ww 0%nat []] =>
        destruct (sampling_loop_counts st cb sg n 0%nat so xx ww [] ltac:(lia))
          as (Hb & Hok & fresh & Hc & Hi & Hf)
    end.
    simpl in Hc. rewrite Hc. rewrite Nat.sub_0_r in Hi.
    split; [lia |]. split; [exact Hok |]. split; assumption.
  - simpl. split; [lia |]. split; [discriminate |].
    destruct callback; split; constructor.
Qed.

(** ** The ancestral samplers *)

(** X6: a non-default [noise_type] together with an explicit
    [noise_sampler] makes both ancestral samplers raise [ValueError] before
    anything else is looked at, whatever the schedule. *)
Theorem ancestral_samplers_reject_ambiguous_noise :
  forall (get_ancestral_step : R -> R -> R -> R * R)
         (base_generator : NoiseType -> Tensor -> R -> R -> Torch -> Tensor * Torch)
         (model : Tensor -> Tensor -> Tensor) (x : Tensor) (sigmas : list R)
         (callback : bool) (m mh : R) (init : HistoryType)
         (noise_type : string) (dir eta s_noise : R) (supplied : NoiseSampler)
         (gt : option GuidanceType)
         (latent : option (gmap string (option Tensor))) (gf : R) (w : Torch),
    noise_type <> "gaussian"%string ->
    SonarEulerAncestral_sampler get_ancestral_step base_generator model x
      sigmas callback m mh init noise_type dir eta s_noise (Some supplied) w
    = failed ValueError
    /\ SonarNaive_sampler get_ancestral_step base_generator model x sigmas
         callback m mh init noise_type dir s_noise (Some supplied) gt latent
         gf w
       = failed ValueError.
Proof.
  intros gas bg model x sigmas callback m mh init noise_type dir eta s_noise
    supplied gt latent gf w Hnt.
  assert (Hg : ancestral_noise_sampler x sigmas noise_type (Some supplied)
               = Raise ValueError).
  { unfold ancestral_noise_sampler.
    apply String.eqb_neq in Hnt. rewrite Hnt. reflexivity. }
  unfold SonarEulerAncestral_sampler, SonarEulerAncestral_setup,
    SonarNaive_sampler, SonarNaive_setup.
  rewrite Hg. split; reflexivity.
Qed.

Lemma ancestral_samplers_reject_ambiguous_noise_witness :
  SonarEulerAncestral_sampler plain_ancestral_step silent_generator zero_model
    small_latent [1; 0] true 0.95 0.75 ZERO "perlin" 1 1 1
    (Some (mkNoiseSampler PERLIN small_latent PNone PNone PNone 1 false))
    still_torch
  = failed ValueError.
Proof.
  apply (proj1 (ancestral_samplers_reject_ambiguous_noise plain_ancestral_step
                  silent_generator zero_model small_latent [1; 0] true 0.95
                  0.75 ZERO "perlin" 1 1 1
                  (mkNoiseSampler PERLIN small_latent PNone PNone PNone 1 false)
                  None None 0 still_torch ltac:(discriminate))).
Defined.

(** X7: a [SonarNaive] step is the [SonarEulerAncestral] step with
    [eta = 1.0] on the same fields whenever guidance is off (no reference
    latent, no guidance type, or a zero factor), and also on a step towards
    a sigma that is not positive, where guidance is not consulted at all. *)
Theorem naive_step_is_ancestral_step :
  forall (get_ancestral_step : R -> R -> R -> R * R)
         (base_generator : NoiseType -> Tensor -> R -> R -> Torch -> Tensor * Torch)
         (self : SonarNaive) (i : nat) (sample : Tensor) (w : Torch),
    (ref_latent (nv_guidance self) = None
     \/ guidance_type (nv_guidance self) = None
     \/ guidance_factor (nv_guidance self) = 0)
    \/ (exists sigma_to, nth_error (nv_sigmas self) (i + 1) = Some sigma_to
                         /\ ~ 0 < sigma_to) ->
    SonarNaive_step get_ancestral_step base_generator self i sample w
    = match SonarEulerAncestral_step get_ancestral_step base_generator
              (SonarNaive_as_ancestral self) i sample w with
      | Ok (x', sigma, sigma_hat, denoised, ea, w') =>
          Ok (x', sigma, sigma_hat, denoised,
              mkNaive (ea_base ea) (nv_model self) (nv_sigmas self)
                (nv_s_in self) (nv_guidance self) (nv_noise_sampler self)
                (nv_s_noise self), w')
      | Raise e => Raise e
      end.
Proof.
  intros gas bg self i sample w Hoff.
  unfold SonarNaive_step, SonarEulerAncestral_step, SonarNaive_as_ancestral.
  simpl.
  destruct (init_hist_d (nv_base self) sample w) as [b w1].
  unfold index_sigmas.
  destruct (nth_error (nv_sigmas self) i) as [sigma_from |]; [| reflexivity].
  destruct (nth_error (nv_sigmas self) (i + 1)) as [sigma_to |] eqn:Et;
    [| reflexivity].
  run_result.
  destruct (gas sigma_from sigma_to 1) as [sigma_down sigma_up].
  destruct (momentum_step b sample _ _) as [[r b'] |]; [| reflexivity].
  destruct (Rltb 0 sigma_to) eqn:Epos.
  - assert (Hnoop : guidance_step (nv_guidance self) (nv_sigmas self) i r
                      (nv_model self sample (smul sigma_from (nv_s_in self)))
                    = Ok r).
    { destruct Hoff as [Hoff | (st & Hst & Hneg)].
      - now apply guidance_step_noop.
      - injection Hst as <-. unfold Rltb in Epos.
        destruct (Rlt_dec 0 sigma_to); [contradiction | discriminate]. }
    rewrite Hnoop.
    destruct (NoiseSampler_call bg (nv_noise_sampler self) sigma_from sigma_to w1)
      as [noise w2].
    reflexivity.
  - reflexivity.
Qed.

Lemma naive_step_is_ancestral_step_witness :
  SonarNaive_step plain_ancestral_step silent_generator
    (mkNaive (mkSonarBase HNone ZERO 1 0.75 1) zero_model [1; 0]
       (full [1%nat] 1) (mkGuidance None 0.5 (Some LINEAR))
       (mkNoiseSampler GAUSSIAN small_latent PNone PNone PNone 1 false) 1)
    0 small_latent still_torch
  = match SonarEulerAncestral_step plain_ancestral_step silent_generator
            (mkEulerAncestral (mkSonarBase HNone ZERO 1 0.75 1) zero_model
               [1; 0] (full [1%nat] 1)
               (mkNoiseSampler GAUSSIAN small_latent PNone PNone PNone 1 false)
               1 1)
            0 small_latent still_torch with
    | Ok (x', sigma, sigma_hat, denoised, ea, w') =>
        Ok (x', sigma, sigma_hat, denoised,
            mkNaive (ea_base ea) zero_model [1; 0] (full [1%nat] 1)
              (mkGuidance None 0.5 (Some LINEAR))
              (mkNoiseSampler GAUSSIAN small_latent PNone PNone PNone 1 false)
              1, w')
    | Raise e => Raise e
    end.
Proof.
  apply (naive_step_is_ancestral_step plain_ancestral_step silent_generator
           (mkNaive (mkSonarBase HNone ZERO 1 0.75 1) zero_model [1; 0]
              (full [1%nat] 1) (mkGuidance None 0.5 (Some LINEAR))
              (mkNoiseSampler GAUSSIAN small_latent PNone PNone PNone 1 false)
              1)
           0%nat small_latent still_torch).
  left. left. reflexivity.
Defined.

(** ** Constructing the guidance mixin *)

(** X8: a latent dict without the key ["samples"] makes the constructor
    raise [KeyError]; a dict whose ["samples"] is [None] constructs a mixin
    without reference latent, whose guidance step returns its input for
    every guidance type and factor. *)
Theorem guidance_init_from_dict :
  forall (gt : option GuidanceType) (gf : R)
         (latent : gmap string (option Tensor)),
    (latent !! "samples"%string = None ->
     SonarGuidanceMixin_init gt (Some latent) gf = Raise KeyError)
    /\ (latent !! "samples"%string = Some None ->
        exists g : SonarGuidanceMixin,
          SonarGuidanceMixin_init gt (Some latent) gf = Ok g
          /\ forall (sigmas : list R) (i : nat) (x denoised : Tensor),
               guidance_step g sigmas i x denoised = Ok x).
Proof.
  intros gt gf latent. unfold SonarGuidanceMixin_init, subscript_samples.
  split; intros H; rewrite H.
  - reflexivity.
  - eexists. split; [reflexivity |].
    intros. apply guidance_step_noop. left. reflexivity.
Qed.

Lemma guidance_init_from_dict_witness :
  SonarGuidanceMixin_init (Some EULER) (Some (∅ : gmap string (option Tensor)))
    0.5
  = Raise KeyError.
Proof.
  apply (proj1 (guidance_init_from_dict (Some EULER) 0.5 ∅)).
  reflexivity.
Defined.

(** ** Items and chains *)

Lemma plain_names_unbound (kwargs : list (string * pyval)) (k : string) :
  plain_names kwargs = true -> plain_name k = false ->
  is_bound k kwargs = false /\ lookup_arg k kwargs = None.
Proof.
  intros Hp Hk. induction kwargs as [|[k' v] kwargs IH]; [split; reflexivity |].
  simpl in Hp. apply andb_prop in Hp as [Hk' Hrest].
  destruct (IH Hrest) as [Hb Hl]. simpl.
  destruct (String.eqb k' k) eqn:E.
  - apply String.eqb_eq in E. subst k'. congruence.
  - split; assumption.
Qed.

(** X9: a [CustomNoiseItem] cannot be built with a keyword named [self] or
    [factor] ([TypeError]).  With plain keyword names it cannot be built
    without a [noise_type] (absent or [None]: [ValueError]); otherwise it
    is built, keeps the factor and the keyword arguments it was given, and
    its [clone] succeeds and puts an equal object at a fresh place of the
    store, leaving the store's objects as they were. *)
Theorem custom_noise_item_needs_noise_type :
  forall (f : R) (kwargs : list (string * pyval)),
    (is_bound "self" kwargs = true \/ is_bound "factor" kwargs = true ->
     CustomNoiseItem_init f kwargs = Raise TypeError)
    /\ (plain_names kwargs = true ->
        (lookup_arg "noise_type" kwargs = None
         \/ lookup_arg "noise_type" kwargs = Some PNone ->
         CustomNoiseItem_init f kwargs = Raise ValueError)
        /\ (forall v : pyval,
              lookup_arg "noise_type" kwargs = Some v ->
              v <> PNone ->
              CustomNoiseItem_init f kwargs = Ok (mkNoiseObj f kwargs)
              /\ forall (h : store) (a : ref),
                   h !! a = Some (mkNoiseObj f kwargs) ->
                   CustomNoiseItem_clone h a
                   = Ok (length h, h ++ [mkNoiseObj f kwargs])
                   /\ forall (b : ref) (o : NoiseObj),
                        h !! b = Some o ->
                        (h ++ [mkNoiseObj f kwargs]) !! b = Some o)).
Proof.
  intros f kwargs. split.
  - intros [H | H]; unfold CustomNoiseItem_init; rewrite H;
      [| rewrite orb_true_r]; reflexivity.
  - intros Hp.
    destruct (plain_names_unbound kwargs "self" Hp eq_refl) as [Hself _].
    destruct (plain_names_unbound kwargs "factor" Hp eq_refl) as [Hfactor _].
    destruct (plain_names_unbound kwargs "keys" Hp eq_refl) as [_ Hkeys].
    destruct (plain_names_unbound kwargs "clone" Hp eq_refl) as [Hclone _].
    assert (Hinit : forall v, lookup_arg "noise_type" kwargs = Some v ->
                              v <> PNone ->
                              CustomNoiseItem_init f kwargs
                              = Ok (mkNoiseObj f kwargs)).
    { intros v Hl Hv. unfold CustomNoiseItem_init.
      rewrite Hself, Hfactor, Hl. simpl.
      destruct v; try reflexivity. congruence. }
    split.
    + intros [H | H]; unfold CustomNoiseItem_init;
        rewrite Hself, Hfactor, H; reflexivity.
    + intros v Hl Hv. split; [exact (Hinit v Hl Hv) |].
      intros h a Ha. split.
      * unfold CustomNoiseItem_clone, deref. rewrite Ha. run_result.
        rewrite Hclone, Hkeys. simpl.
        rewrite (Hinit v Hl Hv). reflexivity.
      * intros b o Hb. rewrite lookup_app_l; [exact Hb |].
        eapply lookup_lt_Some. exact Hb.
Qed.

Lemma custom_noise_item_needs_noise_type_witness :
  plain_names [("noise_type", PStr "pink"); ("seed", PInt 3)]%string = true
  /\ CustomNoiseItem_init 1 [("noise_type", PStr "pink"); ("seed", PInt 3)]%string
     = Ok (mkNoiseObj 1 [("noise_type", PStr "pink"); ("seed", PInt 3)]%string).
Proof.
  assert (Hp : plain_names [("noise_type", PStr "pink"); ("seed", PInt 3)]%string
               = true) by reflexivity.
  assert (Hv : PStr "pink" <> PNone) by discriminate.
  split; [exact Hp |].
  exact (proj1 (proj2 (proj2 (custom_noise_item_needs_noise_type 1
                                [("noise_type", PStr "pink"); ("seed", PInt 3)]%string)
                         Hp) (PStr "pink") eq_refl Hv)).
Defined.

Lemma resolves_app (h : store) (items items' : list ref)
    (objs objs' : list NoiseObj) :
  resolves h items objs -> resolves h items' objs' ->
  resolves h (items ++ items') (objs ++ objs').
Proof. unfold resolves. intros H H'. now apply Forall2_app. Qed.

Lemma sum_abs_app (objs objs' : list NoiseObj) :
  sum_list (abs_factors (objs ++ objs'))
  = sum_list (abs_factors objs) + sum_list (abs_factors objs').
Proof.
  induction objs as [|o objs IH]; simpl; [ring |]. rewrite IH. ring.
Qed.

(** X10: [add(None)] raises [ValueError]; adding an item appends it, and the
    chain's factor grows by the magnitude of the item's factor. *)
Theorem chain_add_grows_factor :
  forall (h : store) (items : list ref) (objs : list NoiseObj),
    chain_add items None = Raise ValueError
    /\ forall (a : ref) (o : NoiseObj),
         resolves h items objs ->
         h !! a = Some o ->
         chain_add items (Some a) = Ok (items ++ [a])
         /\ chain_factor h (items ++ [a])
            = Ok (sum_list (abs_factors objs) + Rabs (factor o)).
Proof.
  intros h items objs. split; [reflexivity |].
  intros a o Hres Ha. split; [reflexivity |].
  assert (Hone : resolves h [a] [o]) by (repeat constructor; exact Ha).
  rewrite (chain_factor_resolved _ _ _ (resolves_app _ _ _ _ _ Hres Hone)).
  rewrite sum_abs_app. simpl. f_equal. ring.
Qed.

Lemma chain_add_grows_factor_witness :
  chain_factor [mkNoiseObj 1 []; mkNoiseObj (-3) []] ([0%nat] ++ [1%nat])
  = Ok (sum_list (abs_factors [mkNoiseObj 1 []]) + Rabs (-3)).
Proof.
  assert (Hr : resolves [mkNoiseObj 1 []; mkNoiseObj (-3) []] [0%nat]
                 [mkNoiseObj 1 []]) by (repeat constructor).
  exact (proj2 (proj2 (chain_add_grows_factor
                         [mkNoiseObj 1 []; mkNoiseObj (-3) []] [0%nat]
                         [mkNoiseObj 1 []])
                  1%nat (mkNoiseObj (-3) []) Hr eq_refl)).
Defined.



(** X12: [rescaled(0)] raises [ZeroDivisionError], for every chain, the
    empty one included. *)
Theorem chain_rescaled_zero_target :
  forall (h : store) (items : list ref) (objs : list NoiseObj),
    resolves h items objs ->
    rescaled h items 0 = Raise ZeroDivisionError.
Proof.
  intros h items objs Hres. unfold rescaled.
  rewrite (chain_factor_resolved h items objs Hres). run_result.
  unfold py_truediv. rewrite Reqb_true by reflexivity. reflexivity.
Qed.

Lemma chain_rescaled_zero_target_witness :
  rescaled [] [] 0 = Raise ZeroDivisionError.
Proof.
  apply (chain_rescaled_zero_target [] [] []). constructor.
Defined.

(** X13: [rescaled(s)] is a plain [clone] when the chain's factor is zero
    or already equals the target. *)
Theorem chain_rescaled_plain_clone :
  forall (h : store) (items : list ref) (objs : list NoiseObj) (s : R),
    resolves h items objs ->
    s <> 0 ->
    sum_list (abs_factors objs) = 0 \/ sum_list (abs_factors objs) = s ->
    rescaled h items s = chain_clone h items.
Proof.
  intros h items objs s Hres Hs Hcase. unfold rescaled.
  rewrite (chain_factor_resolved h items objs Hres). run_result.
  unfold py_truediv. rewrite Reqb_false by exact Hs. simpl.
  rewrite (chain_clone_resolved h items objs Hres). simpl.
  fold (rescale_divisor (sum_list (abs_factors objs)) s).
  assert (Hd : rescale_divisor (sum_list (abs_factors objs)) s = 1).
  { destruct Hcase as [H0 | Heq].
    - rewrite H0. apply rescale_divisor_zero_total.
    - rewrite rescale_divisor_nonzero_total by lra. rewrite Heq.
      field. exact Hs. }
  rewrite Hd, Reqb_true by reflexivity. reflexivity.
Qed.

Lemma chain_rescaled_plain_clone_witness :
  rescaled [mkNoiseObj 0 []] [0%nat] 2 = chain_clone [mkNoiseObj 0 []] [0%nat].
Proof.
  apply (chain_rescaled_plain_clone [mkNoiseObj 0 []] [0%nat]
           [mkNoiseObj 0 []] 2).
  - repeat constructor.
  - lra.
  - left. simpl. rewrite Rabs_R0. ring.
Defined.




(** ** Binding leaf items and chains *)


Lemma upper_ascii_idempotent (c : ascii) : upper_ascii (upper_ascii c) = upper_ascii c.
Proof.
  unfold upper_ascii.
  destruct ((97 <=? nat_of_ascii c)%nat && (nat_of_ascii c <=? 122)%nat) eqn:E.
  - apply andb_true_iff in E. destruct E as [E1 E2].
    apply Nat.leb_le in E1. apply Nat.leb_le in E2.
    rewrite nat_ascii_embedding by lia.
    assert (H : (97 <=? nat_of_ascii c - 32)%nat = false)
      by (apply Nat.leb_gt; lia).
    rewrite H. reflexivity.
  - rewrite E. reflexivity.
Qed.

Lemma upper_idempotent (s : string) : upper (upper s) = upper s.
Proof.
  induction s as [|c s IH]; simpl; [reflexivity |].
  now rewrite upper_ascii_idempotent, IH.
Qed.

(** X15: the noise type of an item is looked up without regard to letter
    case: an item named [name] and one named [name.upper()] with the same
    factor bind to the same result, sampler or exception. *)
Theorem item_noise_type_ignores_case :
  forall (o o' : NoiseObj) (name : string) (x : Tensor)
         (sigma_min sigma_max seed : pyval) (cpu normalized : bool),
    lookup_arg "noise_type" (attrs o) = Some (PStr name) ->
    lookup_arg "noise_type" (attrs o') = Some (PStr (upper name)) ->
    factor o' = factor o ->
    CustomNoiseItem_make_noise_sampler o x sigma_min sigma_max seed cpu
      normalized
    = CustomNoiseItem_make_noise_sampler o' x sigma_min sigma_max seed cpu
        normalized.
Proof.
  intros o o' name x sigma_min sigma_max seed cpu normalized Hl Hl' Hf.
  unfold CustomNoiseItem_make_noise_sampler. rewrite Hl, Hl', Hf.
  unfold get_noise_sampler. run_result. rewrite upper_idempotent.
  reflexivity.
Qed.

Lemma item_noise_type_ignores_case_witness :
  CustomNoiseItem_make_noise_sampler
    (mkNoiseObj 2 [("noise_type", PStr "Perlin")]%string) small_latent PNone
    PNone PNone true false
  = CustomNoiseItem_make_noise_sampler
      (mkNoiseObj 2 [("noise_type", PStr "PERLIN")]%string) small_latent PNone
      PNone PNone true false.
Proof.
  apply (item_noise_type_ignores_case
           (mkNoiseObj 2 [("noise_type", PStr "Perlin")]%string)
           (mkNoiseObj 2 [("noise_type", PStr "PERLIN")]%string) "Perlin");
    reflexivity.
Defined.








(** ** [ScheduledNoise] *)

Lemma scale_zeros_unnormalized (x : Tensor) (f : R) :
  scale_noise (zeros_like x) f false = zeros_like x.
Proof.
  unfold scale_noise, muls, zeros_like, tmap. simpl. f_equal.
  rewrite map_map. apply map_ext. intros v. ring.
Qed.

(** X19: the window of a scheduled sampler is closed at both ends: for
    [end_sigma <= s <= start_sigma] the call returns the scaled noise of the
    base sampler and leaves the fallback alone; outside it returns the
    scaled noise of the fallback and leaves the base sampler alone, and
    without a fallback and without normalization it returns the zero
    tensor shaped like [x] and changes nothing. *)
Theorem scheduled_noise_window :
  forall (St Sf : Type) (ns : St -> R -> R -> Tensor * St)
         (nsa : Sf -> R -> R -> Tensor * Sf) (c : ScheduledNoise.closure)
         (s sn : R),
    let self := ScheduledNoise.self c in
    let inside := ScheduledNoise.end_sigma self <= s
                  /\ s <= ScheduledNoise.start_sigma self in
    (inside ->
     ScheduledNoise.noise_sampler ns nsa c s sn
     = (scale_noise (fst (ns (ScheduledNoise.ns_state c) s sn))
          (ScheduledNoise.factor self) (ScheduledNoise.c_normalize c),
        ScheduledNoise.mkClosure self (ScheduledNoise.c_normalize c)
          (ScheduledNoise.c_x c) (snd (ns (ScheduledNoise.ns_state c) s sn))
          (ScheduledNoise.nsa_state c)))
    /\ (~ inside ->
        forall f : Sf,
          ScheduledNoise.nsa_state c = Some f ->
          ScheduledNoise.noise_sampler ns nsa c s sn
          = (scale_noise (fst (nsa f s sn)) (ScheduledNoise.factor self)
               (ScheduledNoise.c_normalize c),
             ScheduledNoise.mkClosure self (ScheduledNoise.c_normalize c)
               (ScheduledNoise.c_x c) (ScheduledNoise.ns_state c)
               (Some (snd (nsa f s sn)))))
    /\ (~ inside ->
        ScheduledNoise.nsa_state c = None ->
        ScheduledNoise.c_normalize c = false ->
        ScheduledNoise.noise_sampler ns nsa c s sn
        = (zeros_like (ScheduledNoise.c_x c), c)).
Proof.
  intros St Sf ns nsa c s sn self inside. subst self inside.
  assert (Hout : ~ (ScheduledNoise.end_sigma (ScheduledNoise.self c) <= s
                    /\ s <= ScheduledNoise.start_sigma (ScheduledNoise.self c)) ->
                 Rleb s (ScheduledNoise.start_sigma (ScheduledNoise.self c))
                 && Rleb (ScheduledNoise.end_sigma (ScheduledNoise.self c)) s
                 = false).
  { intros Hn. unfold Rleb.
    destruct (Rle_dec s _); destruct (Rle_dec _ s); try reflexivity.
    exfalso. apply Hn. split; assumption. }
  split; [| split].
  - intros [He Hs]. unfold ScheduledNoise.noise_sampler.
    rewrite !Rleb_true by assumption. simpl.
    destruct (ns (ScheduledNoise.ns_state c) s sn). reflexivity.
  - intros Hn f Hf. unfold ScheduledNoise.noise_sampler.
    rewrite (Hout Hn), Hf. destruct (nsa f s sn). reflexivity.
  - intros Hn Hf Hnorm. unfold ScheduledNoise.noise_sampler.
    rewrite (Hout Hn), Hf, Hnorm, scale_zeros_unnormalized.
    destruct c; simpl in *. subst. reflexivity.
Qed.

Lemma scheduled_noise_window_witness :
  ScheduledNoise.noise_sampler (constant_noise ramp) (constant_noise ramp)
    (ScheduledNoise.mkClosure (ScheduledNoise.mk 2 1 0.5 None false) false
       ramp tt None) 0.25 0
  = (zeros_like ramp,
     ScheduledNoise.mkClosure (ScheduledNoise.mk 2 1 0.5 None false) false
       ramp tt None).
Proof.
  apply (proj2 (proj2 (scheduled_noise_window unit unit (constant_noise ramp)
                         (constant_noise ramp)
                         (ScheduledNoise.mkClosure
                            (ScheduledNoise.mk 2 1 0.5 None false) false ramp
                            tt None) 0.25 0))).
  - simpl. lra.
  - reflexivity.
  - reflexivity.
Defined.

(** X20: when [start_sigma < end_sigma] the window is empty: no call ever
    reaches the base sampler, so the result of a call is the same whatever
    the base sampler is. *)
Theorem scheduled_noise_empty_window :
  forall (St Sf : Type) (ns ns' : St -> R -> R -> Tensor * St)
         (nsa : Sf -> R -> R -> Tensor * Sf) (c : ScheduledNoise.closure)
         (s sn : R),
    ScheduledNoise.start_sigma (ScheduledNoise.self c)
    < ScheduledNoise.end_sigma (ScheduledNoise.self c) ->
    ScheduledNoise.noise_sampler ns nsa c s sn
    = ScheduledNoise.noise_sampler ns' nsa c s sn
    /\ ScheduledNoise.ns_state (snd (ScheduledNoise.noise_sampler ns nsa c s sn))
       = ScheduledNoise.ns_state c.
Proof.
  intros St Sf ns ns' nsa c s sn Hlt. unfold ScheduledNoise.noise_sampler.
  assert (Hw : Rleb s (ScheduledNoise.start_sigma (ScheduledNoise.self c))
               && Rleb (ScheduledNoise.end_sigma (ScheduledNoise.self c)) s
               = false).
  { unfold Rleb. destruct (Rle_dec s _); destruct (Rle_dec _ s);
      try reflexivity. lra. }
  rewrite Hw. split; [reflexivity |].
  destruct (ScheduledNoise.nsa_state c) as [f |]; [| reflexivity].
  destruct (nsa f s sn). reflexivity.
Qed.

Lemma scheduled_noise_empty_window_witness :
  ScheduledNoise.noise_sampler (constant_noise ramp) (constant_noise ramp)
    (ScheduledNoise.mkClosure (ScheduledNoise.mk 2 0.5 1 None false) false
       ramp tt None) 0.75 0
  = ScheduledNoise.noise_sampler (constant_noise small_latent)
      (constant_noise ramp)
      (ScheduledNoise.mkClosure (ScheduledNoise.mk 2 0.5 1 None false) false
         ramp tt None) 0.75 0.
Proof.
  apply (proj1 (scheduled_noise_empty_window unit unit (constant_noise ramp)
                  (constant_noise small_latent) (constant_noise ramp)
                  (ScheduledNoise.mkClosure
                     (ScheduledNoise.mk 2 0.5 1 None false) false ramp tt None)
                  0.75 0 ltac:(simpl; lra))).
Defined.

(** ** [CompositeNoise] *)

Lemma uniform_mask_blend (k : R) (n : nat) :
  forall a b : list R,
    length a = n -> length b = n ->
    zip_with Rplus
      (zip_with Rmult a
         (zip_with Rminus (map (fun _ => 1) (repeat k n)) (repeat k n)))
      (zip_with Rmult b (repeat k n))
    = zip_with (fun u v => u * (1 - k) + v * k) a b.
Proof.
  induction n as [|n IH]; intros [|u a] [|v b] Ha Hb; simpl in *;
    try discriminate; try reflexivity.
  rewrite IH by lia. reflexivity.
Qed.

Lemma zip_with_right_only (f : R -> R -> R) :
  (forall u v, f u v = v) ->
  forall a b : list R, length a = length b -> zip_with f a b = b.
Proof.
  intros Hf. induction a as [|u a IH]; intros [|v b] H; simpl in *;
    try discriminate; try reflexivity.
  rewrite Hf, IH by lia. reflexivity.
Qed.

Lemma zip_with_left_only (f : R -> R -> R) :
  (forall u v, f u v = u) ->
  forall a b : list R, length a = length b -> zip_with f a b = a.
Proof.
  intros Hf. induction a as [|u a IH]; intros [|v b] H; simpl in *;
    try discriminate; try reflexivity.
  rewrite Hf, IH by lia. reflexivity.
Qed.

(** X21: with a mask that is the same value [k] everywhere once brought to
    the size of [x], a composite sampler returns, entry by entry,
    [dst * (1 - k) + src * k] of the two scaled noises; so a mask of ones
    returns exactly the scaled [src] noise and a mask of zeros exactly the
    scaled [dst] noise. *)
Theorem composite_uniform_mask :
  forall (Sd Ss : Type) (dst_bind : Tensor -> Sd)
         (nsd : Sd -> R -> R -> Tensor * Sd) (src_bind : Tensor -> Ss)
         (nss : Ss -> R -> R -> Tensor * Ss)
         (resample : Tensor -> Tensor -> Tensor) (self : CompositeNoise.t)
         (x : Tensor) (normalized : bool) (s sn : R) (k : R) (n : nat),
    let c := CompositeNoise.make_noise_sampler dst_bind src_bind resample self
               x normalized in
    let dst := scale_noise (fst (nsd (CompositeNoise.dst_state c) s sn))
                 (CompositeNoise.factor self) (CompositeNoise.c_normalize_dst c) in
    let src := scale_noise (fst (nss (CompositeNoise.src_state c) s sn))
                 (CompositeNoise.factor self) (CompositeNoise.c_normalize_src c) in
    let out := fst (CompositeNoise.noise_sampler nsd nss c s sn) in
    data (resample (clone (CompositeNoise.mask self)) x) = repeat k n ->
    length (data dst) = n ->
    length (data src) = n ->
    data out = zip_with (fun u v => u * (1 - k) + v * k) (data dst) (data src)
    /\ (k = 1 -> data out = data src)
    /\ (k = 0 -> data out = data dst).
Proof.
  intros Sd Ss dst_bind nsd src_bind nss resample self x normalized s sn k n
    c dst src out Hmask Hd Hs.
  assert (Hout : data out
                 = zip_with (fun u v => u * (1 - k) + v * k) (data dst) (data src)).
  { subst out dst src c. unfold CompositeNoise.noise_sampler.
    cbn [CompositeNoise.make_noise_sampler CompositeNoise.dst_state
         CompositeNoise.src_state CompositeNoise.self CompositeNoise.c_mask
         CompositeNoise.c_imask CompositeNoise.c_normalize_dst
         CompositeNoise.c_normalize_src] in *.
    destruct (nsd (dst_bind x) s sn) as [nd sd'].
    destruct (nss (src_bind x) s sn) as [nsrc ss'].
    cbn [fst] in *.
    unfold tadd, tmul, tsub, tmap2, ones_like, tmap.
    cbn [data shape]. rewrite Hmask.
    apply uniform_mask_blend; assumption. }
  split; [exact Hout |]. split; intros ->; rewrite Hout.
  - apply zip_with_right_only; [intros; ring | lia].
  - apply zip_with_left_only; [intros; ring | lia].
Qed.

Lemma composite_uniform_mask_witness :
  data (fst (CompositeNoise.noise_sampler (constant_noise (zeros_like small_latent))
               (constant_noise small_latent)
               (CompositeNoise.make_noise_sampler bind_unit bind_unit
                  (fun m x => full [2%nat] 1)
                  (CompositeNoise.mk 1 (Some false) (Some false) ramp)
                  small_latent true) 1 0.5))
  = data (scale_noise small_latent 1 false).
Proof.
  apply (proj1 (proj2 (composite_uniform_mask unit unit bind_unit
                         (constant_noise (zeros_like small_latent)) bind_unit
                         (constant_noise small_latent)
                         (fun m x => full [2%nat] 1)
                         (CompositeNoise.mk 1 (Some false) (Some false) ramp)
                         small_latent true 1 0.5 1 2%nat
                         eq_refl eq_refl eq_refl)) eq_refl).
Defined.

(** ** The cache of [RepeatedNoise] *)

Section RepeatedCache.
Context {St : Type}.
Variable ns : St -> R -> R -> Tensor * St.
Variable gen_randint : Z -> nat -> Rands.

Import RepeatedNoise.

(** What one returning call does to the closure. *)
Lemma repeated_call_effect :
  forall (c c' : closure) (s sn : R) (t : Tensor),
    noise_sampler ns gen_randint c s sn = Ok (t, c') ->
    self c' = self c
    /\ c_normalize c' = c_normalize c
    /\ gen_seed c' = gen_seed c
    /\ gen_calls c' = S (gen_calls c)
    /\ (((Z.of_nat (length (noise_items c)) < repeat_length (self c))%Z
         /\ noise_items c' = noise_items c ++ [fst (ns (ns_state c) s sn)]
         /\ ns_state c' = snd (ns (ns_state c) s sn))
        \/ ((repeat_length (self c) <= Z.of_nat (length (noise_items c)))%Z
            /\ noise_items c' = noise_items c
            /\ ns_state c' = ns_state c))
    /\ ((Z.of_nat (length (noise_items c)) <= repeat_length (self c))%Z ->
        (Z.of_nat (length (noise_items c')) <= repeat_length (self c))%Z).
Proof.
  intros c c' s sn t. unfold noise_sampler.
  destruct (Z.of_nat (length (noise_items c)) <? repeat_length (self c))%Z
    eqn:Elt.
  - apply Z.ltb_lt in Elt.
    destruct (ns (ns_state c) s sn) as [n st']. run_result.
    destruct (py_index (noise_items c ++ [n]) _) as [noise |]; [| discriminate].
    destruct (negb (permute (self c))).
    + intros H. injection H as _ <-. simpl. repeat split.
      * left. repeat split. exact Elt.
      * intros _. rewrite length_app. simpl. lia.
    + destruct (permuted _ noise) as [noise' |]; [| discriminate].
      intros H. injection H as _ <-. simpl. repeat split.
      * left. repeat split. exact Elt.
      * intros _. rewrite length_app. simpl. lia.
  - apply Z.ltb_ge in Elt. unfold mbind, result_bind.
    destruct (py_mod _ _) as [idx |]; [| discriminate]. unfold rbind.
    destruct (py_index (noise_items c) idx) as [noise |]; [| discriminate].
    destruct (negb (permute (self c))).
    + intros H. injection H as _ <-. simpl. repeat split.
      * right. repeat split. exact Elt.
      * intros H. exact H.
    + destruct (permuted _ noise) as [noise' |]; [| discriminate].
      intros H. injection H as _ <-. simpl. repeat split.
      * right. repeat split. exact Elt.
      * intros H. exact H.
Qed.

(** X22: a call that returns leaves the spec, the normalization flag and
    the seed as they were and takes exactly one draw from the private
    generator; it either appends one fresh tensor to a cache that was not
    full, or leaves cache and base sampler untouched; entries already
    cached are never changed, and a cache within [repeat_length] stays
    within it. *)
Theorem repeated_cache_invariant :
  forall (c c' : closure) (s sn : R) (t : Tensor),
    noise_sampler ns gen_randint c s sn = Ok (t, c') ->
    self c' = self c
    /\ c_normalize c' = c_normalize c
    /\ gen_seed c' = gen_seed c
    /\ gen_calls c' = S (gen_calls c)
    /\ (((Z.of_nat (length (noise_items c)) < repeat_length (self c))%Z
         /\ noise_items c' = noise_items c ++ [fst (ns (ns_state c) s sn)]
         /\ ns_state c' = snd (ns (ns_state c) s sn))
        \/ ((repeat_length (self c) <= Z.of_nat (length (noise_items c)))%Z
            /\ noise_items c' = noise_items c
            /\ ns_state c' = ns_state c))
    /\ ((Z.of_nat (length (noise_items c)) <= repeat_length (self c))%Z ->
        (Z.of_nat (length (noise_items c')) <= repeat_length (self c))%Z).
Proof. exact repeated_call_effect. Qed.

(** A call with [permute=False] and a positive [repeat_length] returns. *)
Lemma repeated_plain_call (c : closure) (s sn : R) :
  permute (self c) = false ->
  (0 < repeat_length (self c))%Z ->
  exists (t : Tensor) (c' : closure),
    noise_sampler ns gen_randint c s sn = Ok (t, c').
Proof.
  intros Hp Hpos. unfold noise_sampler.
  destruct (Z.of_nat (length (noise_items c)) <? repeat_length (self c))%Z
    eqn:Elt.
  - destruct (ns (ns_state c) s sn) as [n st']. run_result.
    rewrite py_index_app_last, Hp. eexists; eexists; reflexivity.
  - apply Z.ltb_ge in Elt.
    rewrite py_mod_pos by exact Hpos. run_result.
    set (idx := (rands0 (gen_randint (gen_seed c) (gen_calls c))
                 mod repeat_length (self c))%Z).
    assert (Hidx : (0 <= idx < repeat_length (self c))%Z)
      by (apply Z.mod_pos_bound; exact Hpos).
    destruct (nth_error (noise_items c) (Z.to_nat idx)) as [n |] eqn:En.
    + rewrite <- (Z2Nat.id idx) by lia.
      rewrite (py_index_nat _ _ _ En), Hp. eexists; eexists; reflexivity.
    + apply nth_error_None in En. lia.
Qed.

(** X23: with [permute=False] and a positive [repeat_length], any number
    of calls in a row return; the cache then holds the old entries followed
    by the fresh ones, its length is the old length plus the number of
    calls, capped at [repeat_length], and the generator advanced once per
    call. *)
Theorem repeated_calls_fill_cache :
  forall (args : list (R * R)) (c : closure),
    permute (self c) = false ->
    (0 < repeat_length (self c))%Z ->
    (Z.of_nat (length (noise_items c)) <= repeat_length (self c))%Z ->
    exists (outs : list Tensor) (c' : closure),
      repeated_calls ns gen_randint c args = Ok (outs, c')
      /\ length outs = length args
      /\ Z.of_nat (length (noise_items c'))
         = Z.min (Z.of_nat (length (noise_items c) + length args))
                 (repeat_length (self c))
      /\ (exists fresh, noise_items c' = noise_items c ++ fresh)
      /\ gen_calls c' = (gen_calls c + length args)%nat.
Proof.
  induction args as [|[s sn] args IH]; intros c Hp Hpos Hle.
  - exists [], c. simpl. split; [reflexivity |]. split; [reflexivity |].
    split; [rewrite Nat.add_0_r; lia |].
    split; [exists []; now rewrite app_nil_r | lia].
  - destruct (repeated_plain_call c s sn Hp Hpos) as (t & c1 & Hcall).
    destruct (repeated_call_effect c c1 s sn t Hcall)
      as (Hself & _ & _ & Hcalls & Hcache & Hbound).
    specialize (Hbound Hle).
    assert (Hp1 : permute (self c1) = false) by now rewrite Hself.
    assert (Hpos1 : (0 < repeat_length (self c1))%Z) by now rewrite Hself.
    assert (Hle1 : (Z.of_nat (length (noise_items c1))
                    <= repeat_length (self c1))%Z) by now rewrite Hself.
    destruct (IH c1 Hp1 Hpos1 Hle1) as (outs & c2 & Hrest & Hlen & Hsize & Hpre & Hgen).
    exists (t :: outs), c2. simpl. rewrite Hcall. run_result. rewrite Hrest.
    simpl. split; [reflexivity |]. split; [now rewrite Hlen |].
    rewrite Hself in Hsize.
    destruct Hpre as (fresh & Hfresh).
    destruct Hcache as [(Hlt & Hitems & _) | (Hge & Hitems & _)].
    + split; [rewrite Hsize, Hitems, length_app; simpl; lia |].
      split; [| lia].
      exists (fst (ns (ns_state c) s sn) :: fresh).
      rewrite Hfresh, Hitems, <- app_assoc. reflexivity.
    + split; [rewrite Hsize, Hitems; lia |].
      split; [| lia].
      exists fresh. now rewrite Hfresh, Hitems.
Qed.

(** X24: a sampler with [repeat_length = 0] raises [ZeroDivisionError] at
    every call, and one with a negative [repeat_length] raises [IndexError]
    as long as its cache is empty, which it is after binding. *)
Theorem repeated_nonpositive_length_raises :
  forall (c : closure) (s sn : R),
    (repeat_length (self c) = 0%Z ->
     noise_sampler ns gen_randint c s sn = Raise ZeroDivisionError)
    /\ ((repeat_length (self c) < 0)%Z -> noise_items c = [] ->
        noise_sampler ns gen_randint c s sn = Raise IndexError).
Proof.
  intros c s sn. unfold noise_sampler. split.
  - intros H0. rewrite H0.
    assert (Hlt : (Z.of_nat (length (noise_items c)) <? 0)%Z = false)
      by (apply Z.ltb_ge; lia).
    rewrite Hlt. reflexivity.
  - intros Hneg Hnil.
    assert (Hlt : (Z.of_nat (length (noise_items c)) <? repeat_length (self c))%Z
                  = false) by (apply Z.ltb_ge; lia).
    rewrite Hlt. unfold py_mod.
    assert (Hz : (repeat_length (self c) =? 0)%Z = false)
      by (apply Z.eqb_neq; lia).
    rewrite Hz, Hnil. unfold mbind, result_bind, rbind, py_index.
    cbn [length Z.of_nat].
    set (idx := (rands0 (gen_randint (gen_seed c) (gen_calls c))
                 mod repeat_length (self c))%Z).
    cbv zeta.
    destruct (idx <? 0)%Z eqn:E1.
    + destruct (idx + Z.of_nat 0 <? 0)%Z; [reflexivity |].
      destruct (Z.to_nat (idx + Z.of_nat 0)); reflexivity.
    + rewrite E1. destruct (Z.to_nat idx); reflexivity.
Qed.
End RepeatedCache.

Lemma repeated_cache_invariant_witness :
  RepeatedNoise.gen_calls
    (RepeatedNoise.mkClosure (RepeatedNoise.mk 2 (Some false) 1 false) false
       [small_latent] 0 1 tt)
  = 1%nat.
Proof.
  exact (proj1 (proj2 (proj2 (proj2
           (repeated_cache_invariant (constant_noise small_latent) roll_rands
              (RepeatedNoise.mkClosure (RepeatedNoise.mk 2 (Some false) 1 false)
                 false [] 0 0 tt)
              (RepeatedNoise.mkClosure (RepeatedNoise.mk 2 (Some false) 1 false)
                 false [small_latent] 0 1 tt)
              1 0.5 (clone small_latent) eq_refl))))).
Defined.

Lemma repeated_calls_fill_cache_witness :
  exists (outs : list Tensor) (c' : RepeatedNoise.closure),
    repeated_calls (constant_noise ramp) roll_rands
      (RepeatedNoise.mkClosure (RepeatedNoise.mk 1 None 2 false) false [] 0 0 tt)
      [(1, 0.5); (0.5, 0.25); (0.25, 0)] = Ok (outs, c')
    /\ length outs = 3%nat
    /\ Z.of_nat (length (RepeatedNoise.noise_items c'))
       = Z.min (Z.of_nat (0 + 3)) 2
    /\ (exists fresh, RepeatedNoise.noise_items c' = [] ++ fresh)
    /\ RepeatedNoise.gen_calls c' = (0 + 3)%nat.
Proof.
  apply (repeated_calls_fill_cache (constant_noise ramp) roll_rands
           [(1, 0.5); (0.5, 0.25); (0.25, 0)]
           (RepeatedNoise.mkClosure (RepeatedNoise.mk 1 None 2 false) false []
              0 0 tt));
    simpl; [reflexivity | lia | lia].
Defined.

Lemma repeated_nonpositive_length_raises_witness :
  RepeatedNoise.noise_sampler (constant_noise ramp) roll_rands
    (RepeatedNoise.mkClosure (RepeatedNoise.mk 1 None 0 true) false [] 0 0 tt)
    1 0.5
  = Raise ZeroDivisionError.
Proof.
  apply (proj1 (repeated_nonpositive_length_raises (constant_noise ramp)
                  roll_rands
                  (RepeatedNoise.mkClosure (RepeatedNoise.mk 1 None 0 true)
                     false [] 0 0 tt) 1 0.5)).
  reflexivity.
Defined.

(** ** [ModulatedNoise] *)

(** X25: a modulation type other than ["intensity"], ["frequency"] and
    ["spectral_signum"] is no error: the sampler passes the base noise
    through, scaled by the factor and normalized when either of
    [normalize_result] and [normalize_noise] asks for it; no modulation
    function takes part. *)
Theorem modulated_unknown_type_passes_through :
  forall (St : Type) (ns : St -> R -> R -> Tensor * St)
         (modulate : ModulatedNoise.modulation -> Tensor -> Tensor -> R -> R ->
                     R -> list Z -> Tensor)
         (c : ModulatedNoise.closure) (s sn : R),
    ModulatedNoise.type (ModulatedNoise.self c) <> "intensity"%string ->
    ModulatedNoise.type (ModulatedNoise.self c) <> "frequency"%string ->
    ModulatedNoise.type (ModulatedNoise.self c) <> "spectral_signum"%string ->
    ModulatedNoise.noise_sampler ns modulate c s sn
    = (scale_noise (fst (ns (ModulatedNoise.ns_state c) s sn))
         (ModulatedNoise.factor (ModulatedNoise.self c))
         (ModulatedNoise.c_normalize_result c
          || ModulatedNoise.c_normalize_noise c),
       ModulatedNoise.mkClosure (ModulatedNoise.self c)
         (ModulatedNoise.c_normalize_result c)
         (ModulatedNoise.c_normalize_noise c) (ModulatedNoise.c_dims c)
         (ModulatedNoise.c_x c) (ModulatedNoise.c_ref_latent c)
         (snd (ns (ModulatedNoise.ns_state c) s sn))).
Proof.
  intros St ns modulate c s sn H1 H2 H3.
  unfold ModulatedNoise.noise_sampler, ModulatedNoise.modulation_function.
  apply String.eqb_neq in H1, H2, H3. rewrite H1, H2, H3.
  destruct (ns (ModulatedNoise.ns_state c) s sn). reflexivity.
Qed.

Lemma modulated_unknown_type_passes_through_witness :
  ModulatedNoise.noise_sampler (constant_noise ramp)
    (fun _ _ _ _ _ _ _ => small_latent)
    (ModulatedNoise.mkClosure
       (ModulatedNoise.mk 2 None None false "sharpen" 2 3 None) false false
       [-3; -2; -1]%Z ramp None tt) 1 0.5
  = (scale_noise ramp 2 (false || false),
     ModulatedNoise.mkClosure
       (ModulatedNoise.mk 2 None None false "sharpen" 2 3 None) false false
       [-3; -2; -1]%Z ramp None tt).
Proof.
  apply (modulated_unknown_type_passes_through unit (constant_noise ramp)
           (fun _ _ _ _ _ _ _ => small_latent)
           (ModulatedNoise.mkClosure
              (ModulatedNoise.mk 2 None None false "sharpen" 2 3 None) false
              false [-3; -2; -1]%Z ramp None tt) 1 0.5);
    discriminate.
Defined.

(** X26: binding a modulated sampler succeeds exactly for
    [modulation_dims] from [-2] to [3]; any other value raises
    [IndexError].  The index wraps around as a Python index does, so [0]
    selects the same dimensions as [3], [-1] the same as [2] and [-2] the
    same as [1]. *)
Theorem modulated_dims_range :
  forall (St : Type) (base_bind : Tensor -> St) (self : ModulatedNoise.t)
         (x : Tensor) (normalized : bool),
    let dims_of := fun r => match r with
                            | Ok c => Some (ModulatedNoise.c_dims c)
                            | Raise _ => None
                            end in
    let bound := ModulatedNoise.make_noise_sampler base_bind self x normalized in
    ((ModulatedNoise.modulation_dims self = 1
      \/ ModulatedNoise.modulation_dims self = -2)%Z ->
     dims_of bound = Some [-3]%Z)
    /\ ((ModulatedNoise.modulation_dims self = 2
         \/ ModulatedNoise.modulation_dims self = -1)%Z ->
        dims_of bound = Some [-2; -1]%Z)
    /\ ((ModulatedNoise.modulation_dims self = 3
         \/ ModulatedNoise.modulation_dims self = 0)%Z ->
        dims_of bound = Some [-3; -2; -1]%Z)
    /\ ((ModulatedNoise.modulation_dims self < -2
         \/ 3 < ModulatedNoise.modulation_dims self)%Z ->
        bound = Raise IndexError).
Proof.
  intros St base_bind self x normalized dims_of bound. subst dims_of bound.
  unfold ModulatedNoise.make_noise_sampler.
  repeat split; intros H.
  - destruct H as [H | H]; rewrite H; reflexivity.
  - destruct H as [H | H]; rewrite H; reflexivity.
  - destruct H as [H | H]; rewrite H; reflexivity.
  - assert (Hi : py_index ModulatedNoise.MODULATION_DIMS
                   (ModulatedNoise.modulation_dims self - 1)
                 = Raise IndexError).
    { unfold py_index. cbv zeta.
      change (Z.of_nat (length ModulatedNoise.MODULATION_DIMS)) with 3%Z.
      destruct H as [H | H].
      - assert (E1 : (ModulatedNoise.modulation_dims self - 1 <? 0)%Z = true)
          by (apply Z.ltb_lt; lia).
        assert (E2 : (ModulatedNoise.modulation_dims self - 1 + 3 <? 0)%Z = true)
          by (apply Z.ltb_lt; lia).
        rewrite E1, E2. reflexivity.
      - assert (E1 : (ModulatedNoise.modulation_dims self - 1 <? 0)%Z = false)
          by (apply Z.ltb_ge; lia).
        rewrite E1, E1.
        assert (E3 : nth_error ModulatedNoise.MODULATION_DIMS
                       (Z.to_nat (ModulatedNoise.modulation_dims self - 1))
                     = None).
        { apply nth_error_None. simpl. lia. }
        rewrite E3. reflexivity. }
    rewrite Hi. reflexivity.
Qed.

Lemma modulated_dims_range_witness :
  ModulatedNoise.make_noise_sampler bind_unit
    (ModulatedNoise.mk 2 None None false "intensity" 2 4 None) ramp true
  = Raise IndexError.
Proof.
  apply (proj2 (proj2 (proj2 (modulated_dims_range unit bind_unit
                                (ModulatedNoise.mk 2 None None false
                                   "intensity" 2 4 None) ramp true)))).
  right. simpl. lia.
Defined.

(** ** [GuidedNoise], the other branches *)

(** X27: a [GuidedNoise] whose method is neither ["linear"] nor ["euler"]
    does not bind: no closure is defined and returning it raises
    [UnboundLocalError]; one with method ["euler"] binds, but every call
    raises [TypeError], [guidance_euler] being called with six positional
    arguments where it takes four. *)
Theorem guided_other_methods_raise :
  forall (St : Type) (base_bind : Tensor -> St)
         (ns : St -> R -> R -> Tensor * St) (self : GuidedNoise.t)
         (x : Tensor) (normalized : bool),
    (GuidedNoise.method self <> "linear"%string ->
     GuidedNoise.method self <> "euler"%string ->
     GuidedNoise.make_noise_sampler base_bind self x normalized
     = Raise UnboundLocalError)
    /\ (GuidedNoise.method self = "euler"%string ->
        exists c : GuidedNoise.closure,
          GuidedNoise.make_noise_sampler base_bind self x normalized = Ok c
          /\ forall s sn : R,
               GuidedNoise.noise_sampler ns c s sn = Raise TypeError).
Proof.
  intros St base_bind ns self x normalized.
  unfold GuidedNoise.make_noise_sampler. split.
  - intros H1 H2. apply String.eqb_neq in H1, H2. rewrite H1, H2.
    reflexivity.
  - intros He. rewrite He. simpl. eexists. split; [reflexivity |].
    intros s sn. unfold GuidedNoise.noise_sampler. simpl.
    destruct (ns (base_bind x) s sn). reflexivity.
Qed.

Lemma guided_other_methods_raise_witness :
  GuidedNoise.make_noise_sampler bind_unit
    (GuidedNoise.mk 1 0.5 small_latent "cubic" None false) small_latent true
  = Raise UnboundLocalError.
Proof.
  apply (proj1 (guided_other_methods_raise unit bind_unit
                  (constant_noise small_latent)
                  (GuidedNoise.mk 1 0.5 small_latent "cubic" None false)
                  small_latent true));
    discriminate.
Defined.

(** ** [add_samplers] *)

Lemma contains_app (l l' : list string) (name : string) :
  contains (l ++ l') name = contains l name || contains l' name.
Proof. unfold contains. apply existsb_app. Qed.

Lemma contains_In (l : list string) (name : string) :
  contains l name = true <-> In name l.
Proof.
  unfold contains. rewrite existsb_exists. split.
  - intros (y & Hy & He). apply String.eqb_eq in He. now subst.
  - intros H. exists name. split; [exact H | apply String.eqb_refl].
Qed.

Lemma NoDup_snoc (l : list string) (name : string) :
  NoDup l -> contains l name = false -> NoDup (l ++ [name]).
Proof.
  intros Hn Hc. apply NoDup_app. split; [exact Hn |].
  split; [| apply NoDup_singleton].
  intros y Hy Hin. apply list_elem_of_singleton in Hin. subst y.
  apply list_elem_of_In in Hy. apply contains_In in Hy. congruence.
Qed.

(** [add_samplers] by what was listed before. *)
Lemma add_samplers_cases (c : Comfy) :
  add_samplers c
  = match contains (SAMPLERS c) "sonar_euler",
          contains (SAMPLERS c) "sonar_euler_ancestral" with
    | true, true => c
    | true, false =>
        mkComfy (SAMPLERS c ++ ["sonar_euler_ancestral"%string])
          (<[ "sample_sonar_euler_ancestral"%string
              := sampler_of_SonarEulerAncestral ]> (k_diffusion_sampling c))
          (S (reloads c))
    | false, true =>
        mkComfy (SAMPLERS c ++ ["sonar_euler"%string])
          (<[ "sample_sonar_euler"%string := sampler_of_SonarEuler ]>
             (k_diffusion_sampling c))
          (S (reloads c))
    | false, false =>
        mkComfy ((SAMPLERS c ++ ["sonar_euler"%string])
                 ++ ["sonar_euler_ancestral"%string])
          (<[ "sample_sonar_euler_ancestral"%string
              := sampler_of_SonarEulerAncestral ]>
             (<[ "sample_sonar_euler"%string := sampler_of_SonarEuler ]>
                (k_diffusion_sampling c)))
          (S (reloads c))
    end.
Proof.
  unfold add_samplers, extra_samplers, add_each.
  destruct (contains (SAMPLERS c) "sonar_euler") eqn:E1.
  - destruct (contains (SAMPLERS c) "sonar_euler_ancestral") eqn:E2;
      reflexivity.
  - cbn [SAMPLERS]. rewrite contains_app.
    destruct (contains (SAMPLERS c) "sonar_euler_ancestral") eqn:E2;
      reflexivity.
Qed.

(** X28: after [add_samplers] both sampler names are in
    [KSampler.SAMPLERS]; what was in the list stays, in order, in front of
    what was added; a list without duplicates stays without duplicates;
    for a name that was already listed nothing is set on the module, while a
    name that was added gets the Sonar sampler under [sample_<name>]. *)
Theorem add_samplers_registers :
  forall c : Comfy,
    let c' := add_samplers c in
    contains (SAMPLERS c') "sonar_euler" = true
    /\ contains (SAMPLERS c') "sonar_euler_ancestral" = true
    /\ (exists added, SAMPLERS c' = SAMPLERS c ++ added)
    /\ (NoDup (SAMPLERS c) -> NoDup (SAMPLERS c'))
    /\ k_diffusion_sampling c' !! "sample_sonar_euler"%string
       = (if contains (SAMPLERS c) "sonar_euler"
          then k_diffusion_sampling c !! "sample_sonar_euler"%string
          else Some sampler_of_SonarEuler)
    /\ k_diffusion_sampling c' !! "sample_sonar_euler_ancestral"%string
       = (if contains (SAMPLERS c) "sonar_euler_ancestral"
          then k_diffusion_sampling c !! "sample_sonar_euler_ancestral"%string
          else Some sampler_of_SonarEulerAncestral).
Proof.
  intros c c'. subst c'. rewrite add_samplers_cases.
  destruct (contains (SAMPLERS c) "sonar_euler") eqn:E1;
    destruct (contains (SAMPLERS c) "sonar_euler_ancestral") eqn:E2;
    cbn [SAMPLERS k_diffusion_sampling]; rewrite ?contains_app, ?E1, ?E2.
  - repeat split; try reflexivity.
    + exists []. now rewrite app_nil_r.
    + auto.
  - repeat split; try reflexivity.
    + eexists. reflexivity.
    + intros Hn. now apply NoDup_snoc.
    + rewrite lookup_insert_ne by discriminate. reflexivity.
    + now rewrite lookup_insert_eq.
  - repeat split; try reflexivity.
    + eexists. reflexivity.
    + intros Hn. now apply NoDup_snoc.
    + now rewrite lookup_insert_eq.
    + rewrite lookup_insert_ne by discriminate. reflexivity.
  - repeat split; try reflexivity.
    + eexists. rewrite <- app_assoc. reflexivity.
    + intros Hn. apply NoDup_snoc; [now apply NoDup_snoc |].
      rewrite contains_app, E2. reflexivity.
    + rewrite lookup_insert_ne by discriminate. now rewrite lookup_insert_eq.
    + now rewrite lookup_insert_eq.
Qed.

(** X29: [add_samplers] is idempotent: a second run finds both names,
    adds nothing, sets nothing and does not reload the module. *)
Theorem add_samplers_idempotent :
  forall c : Comfy, add_samplers (add_samplers c) = add_samplers c.
Proof.
  intros c. rewrite (add_samplers_cases (add_samplers c)).
  rewrite (add_samplers_cases c).
  destruct (contains (SAMPLERS c) "sonar_euler") eqn:E1;
    destruct (contains (SAMPLERS c) "sonar_euler_ancestral") eqn:E2;
    cbn [SAMPLERS]; rewrite ?contains_app, ?E1, ?E2; reflexivity.
Qed.

Lemma euler_sampler_steps_and_callbacks_witness :
  map ev_i (callbacks (SonarEuler.sampler zero_model small_latent [1; 0.5; 0]
                         true 1 0.75 ZERO 1 0 0 PosInf 1 still_torch))
  = seq 0 (steps_done (SonarEuler.sampler zero_model small_latent [1; 0.5; 0]
                         true 1 0.75 ZERO 1 0 0 PosInf 1 still_torch)).
Proof.
  exact (proj1 (proj2 (proj2 (euler_sampler_steps_and_callbacks zero_model
                                small_latent [1; 0.5; 0] true 1 0.75 ZERO 1 0
                                0 PosInf 1 still_torch)))).
Defined.

Lemma add_samplers_registers_witness :
  NoDup ["euler"; "sonar_euler"]%string
  /\ NoDup (SAMPLERS (add_samplers
                        (mkComfy ["euler"; "sonar_euler"]%string ∅ 0))).
Proof.
  assert (H : NoDup ["euler"; "sonar_euler"]%string).
  { apply NoDup_cons. split; [| apply NoDup_singleton].
    intros Hin. apply list_elem_of_singleton in Hin. discriminate. }
  split; [exact H |].
  exact (proj1 (proj2 (proj2 (proj2
           (add_samplers_registers
              (mkComfy ["euler"; "sonar_euler"]%string ∅ 0))))) H).
Defined.

(** ** The last step of an ancestral run *)

(** X30: on a step towards a sigma that is not positive, as the last step of
    a schedule ending in zero is, [SonarEulerAncestral.step] injects no
    noise: the noise sampler is not called, the generator is left as
    [init_hist_d] left it, and the sample returned is the momentum update
    along the derivative with [dt = sigma_down - sigma_from]. *)
Theorem ancestral_last_step_adds_no_noise :
  forall (get_ancestral_step : R -> R -> R -> R * R)
         (base_generator : NoiseType -> Tensor -> R -> R -> Torch -> Tensor * Torch)
         (self : SonarEulerAncestral) (i : nat) (sample : Tensor) (w : Torch)
         (sigma_from sigma_to : R),
    nth_error (ea_sigmas self) i = Some sigma_from ->
    nth_error (ea_sigmas self) (i + 1) = Some sigma_to ->
    ~ 0 < sigma_to ->
    SonarEulerAncestral_step get_ancestral_step base_generator self i sample w
    = (let '(b, w1) := init_hist_d (ea_base self) sample w in
       let denoised := ea_model self sample (smul sigma_from (ea_s_in self)) in
       let sigma_down :=
         fst (get_ancestral_step sigma_from sigma_to (ea_eta self)) in
       match momentum_step b sample (to_d sample sigma_from denoised)
               (sigma_down - sigma_from) with
       | Ok (r, b') =>
           Ok (r, sigma_from, sigma_from, denoised,
               mkEulerAncestral b' (ea_model self) (ea_sigmas self)
                 (ea_s_in self) (ea_noise_sampler self) (ea_eta self)
                 (ea_s_noise self), w1)
       | Raise e => Raise e
       end).
Proof.
  intros gas bg self i sample w sigma_from sigma_to Hf Ht Hneg.
  unfold SonarEulerAncestral_step.
  destruct (init_hist_d (ea_base self) sample w) as [b w1].
  unfold index_sigmas. rewrite Hf, Ht. run_result.
  destruct (gas sigma_from sigma_to (ea_eta self)) as [sigma_down sigma_up].
  simpl. destruct (momentum_step b sample _ _) as [[r b'] |]; [| reflexivity].
  rewrite Rltb_false by exact Hneg. reflexivity.
Qed.

Lemma ancestral_last_step_adds_no_noise_witness :
  SonarEulerAncestral_step plain_ancestral_step silent_generator
    (mkEulerAncestral (mkSonarBase HNone ZERO 1 0.75 1) zero_model [1; 0]
       (full [1%nat] 1)
       (mkNoiseSampler GAUSSIAN small_latent PNone PNone PNone 1 false) 1 1)
    0 small_latent still_torch
  = Ok (tadd small_latent
          (muls (to_d small_latent 1 (zeros_like small_latent)) (0 - 1)),
        1, 1, zeros_like small_latent,
        mkEulerAncestral (mkSonarBase (HInt 0) ZERO 1 0.75 1) zero_model
          [1; 0] (full [1%nat] 1)
          (mkNoiseSampler GAUSSIAN small_latent PNone PNone PNone 1 false) 1 1,
        still_torch).
Proof.
  assert (Hneg : ~ 0 < 0) by lra.
  rewrite (ancestral_last_step_adds_no_noise plain_ancestral_step
             silent_generator
             (mkEulerAncestral (mkSonarBase HNone ZERO 1 0.75 1) zero_model
                [1; 0] (full [1%nat] 1)
                (mkNoiseSampler GAUSSIAN small_latent PNone PNone PNone 1 false)
                1 1)
             0%nat small_latent still_torch 1 0 eq_refl eq_refl Hneg).
  simpl. unfold momentum_step. simpl.
  rewrite Reqb_true by reflexivity. reflexivity.
Defined.
